(** * Chronodex: the polar geometry kernel and the drag controller

    A shallow embedding of the TypeScript sources

      - [utils/time-utils.ts]          (geometry kernel),
      - [models/activity.model.ts]     (data model),
      - [services/chronodex.service.ts] (the activity store),
      - [components/chronodex/chronodex.component.ts] (controller, both
        variants that the repository carries),

    together with the properties stated about them.

    Modelling conventions.

    - A JavaScript [number] is an exact rational ([Q]).  Every arithmetic
      operator of the source is the corresponding exact operation; the
      rounding functions [Math.floor], [Math.round] and the remainder [%]
      are written out below.  Equality of numbers is [Qeq] ([==]).
      [NaN] and the infinities are outside the model.  Module [Binary64]
      evaluates the conversions between time and angle once more with
      the rounded arithmetic of IEEE 754 binary64, to show that rounding
      does not change what they return on the times of day.
    - A [Date] is its time value: an integer number of milliseconds since
      the epoch ([Z]).  The local time zone is a constant offset
      [LocalTZA]; the accessors follow the abstract operations of
      ECMA-262 ([Day], [HourFromTime], [MakeTime], [MakeDate], ...).
      Invalid dates are outside the model.
    - Coordinates produced by [Math.cos] / [Math.sin] are real numbers.
    - A pointer event is represented by the angle that
      [getAngleFromEvent] computes for it. *)

From Stdlib Require Import Floats.
From Stdlib Require Import Reals Qreals Lra.
From Stdlib Require Import ZArith QArith Qround Qabs Lia Lqa Bool List String.
From Stdlib Require Import Sorting.Sorted Sorting.Permutation.
Import ListNotations.

Local Open Scope Z_scope.

(** * Part I: the embedding *)

(** ** JavaScript numbers *)

Module JS.

Definition number := Q.
Bind Scope Q_scope with number.

(** [Math.floor]. *)
Definition Math_floor (x : number) : Z := Qfloor x.

(** [Math.round]: the closest integer, ties towards +infinity. *)
Definition Math_round (x : number) : Z := Qfloor (x + (1 # 2))%Q.

(** [Math.abs]. *)
Definition Math_abs (x : number) : number := Qabs x.

(** Truncation towards zero ([ToIntegerOrInfinity] on a finite number). *)
Definition trunc (x : number) : Z := Z.quot (Qnum x) (Z.pos (Qden x)).

(** The remainder operator [x % y]: the result has the sign of the
    dividend, [x - y * trunc (x / y)]. *)
Definition rem (x y : number) : number :=
  (x - y * inject_Z (trunc (x / y)))%Q.

(** The relational operators [<], [<=], [>], [>=] and [===] on numbers. *)
Definition ltb (x y : number) : bool := negb (Qle_bool y x).
Definition leb (x y : number) : bool := Qle_bool x y.
Definition gtb (x y : number) : bool := ltb y x.
Definition geb (x y : number) : bool := leb y x.
Definition eqb (x y : number) : bool := Qeq_bool x y.

(** Truthiness of a string: every string but the empty one. *)
Definition truthy_string (s : string) : bool := negb (s =? "")%string.

(** [array.find(p)]: [List.find].  [array.findIndex(p)], with [None]
    for the source's [-1]. *)
Fixpoint findIndex {A} (p : A -> bool) (l : list A) : option nat :=
  match l with
  | [] => None
  | x :: l' =>
      if p x then Some O
      else match findIndex p l' with
           | Some i => Some (S i)
           | None => None
           end
  end.

(** [array[index] = v] for an index inside the array. *)
Fixpoint setAt {A} (index : nat) (v : A) (l : list A) : list A :=
  match l, index with
  | [], _ => []
  | _ :: l', O => v :: l'
  | x :: l', S i => x :: setAt i v l'
  end.

End JS.

Bind Scope Q_scope with JS.number.

(** ** Dates (ECMA-262, "Date Objects") *)

Module Date.

(** The time value of a [Date] object, in milliseconds. *)
Definition t := Z.

Definition msPerSecond : Z := 1000.
Definition msPerMinute : Z := 60000.
Definition msPerHour : Z := 3600000.
Definition msPerDay : Z := 86400000.

Definition Day (tv : Z) : Z := tv / msPerDay.
Definition TimeWithinDay (tv : Z) : Z := tv mod msPerDay.
Definition HourFromTime (tv : Z) : Z := (tv / msPerHour) mod 24.
Definition MinFromTime (tv : Z) : Z := (tv / msPerMinute) mod 60.
Definition SecFromTime (tv : Z) : Z := (tv / msPerSecond) mod 60.
Definition msFromTime (tv : Z) : Z := tv mod msPerSecond.

Definition MakeTime (hour min sec ms : Z) : Z :=
  hour * msPerHour + min * msPerMinute + sec * msPerSecond + ms.
Definition MakeDate (day time : Z) : Z := day * msPerDay + time.

(** [date.getTime()]. *)
Definition getTime (d : t) : Z := d.

(** [new Date(value)] for a numeric [value]: the time value is the
    number truncated to an integer. *)
Definition ofNumber (x : JS.number) : t := JS.trunc x.

Section LocalTime.

(** Offset of local time from UTC, in milliseconds. *)
Variable LocalTZA : Z.

Definition LocalTime (tv : Z) : Z := tv + LocalTZA.
Definition UTC (tv : Z) : Z := tv - LocalTZA.

Definition getHours (d : t) : Z := HourFromTime (LocalTime d).
Definition getMinutes (d : t) : Z := MinFromTime (LocalTime d).
Definition getSeconds (d : t) : Z := SecFromTime (LocalTime d).
Definition getMilliseconds (d : t) : Z := msFromTime (LocalTime d).

(** The local calendar day a date falls on. *)
Definition localDay (d : t) : Z := Day (LocalTime d).

(** [date.setHours(hour, min, sec, ms)], as the new time value. *)
Definition setHours (d : t) (hour min sec ms : Z) : t :=
  let tv := LocalTime d in
  UTC (MakeDate (Day tv) (MakeTime hour min sec ms)).

(** [date.setMinutes(min, sec, ms)], as the new time value. *)
Definition setMinutes (d : t) (min sec ms : Z) : t :=
  let tv := LocalTime d in
  UTC (MakeDate (Day tv) (MakeTime (HourFromTime tv) min sec ms)).

End LocalTime.

End Date.

(** ** The data model ([activity.model.ts]) *)

Record Activity := mkActivity {
  id : string;
  title : string;
  startTime : Date.t;
  endTime : Date.t;
  durationMinutes : JS.number;
  color : string
}.

Module Point.
Record t := mk { x : R; y : R }.
End Point.

(** ** The geometry kernel ([time-utils.ts]) *)

Module TimeUtils.

Definition polarToCartesian
    (centerX centerY radius angleInDegrees : JS.number) : Point.t :=
  let angleInRadians := (Q2R (angleInDegrees - 90) * PI / 180)%R in
  {| Point.x := (Q2R centerX + Q2R radius * cos angleInRadians)%R;
     Point.y := (Q2R centerY + Q2R radius * sin angleInRadians)%R |}.

(** An element of the array that [describeArc] joins with blanks. *)
Inductive PathItem :=
| Str (s : string)
| Num (v : R).

(** The value of [endAngle] after the guard at the top of
    [describeArc]. *)
Definition describeArc_endAngle (startAngle endAngle : JS.number)
    : JS.number :=
  if JS.geb (JS.Math_abs (endAngle - startAngle)) 360
  then (startAngle + 359.99)%Q
  else endAngle.

(** [describeArc], up to the final [join(' ')]: the list of the path's
    items. *)
Definition describeArc (x y radius startAngle endAngle : JS.number)
    : list PathItem :=
  let endAngle := describeArc_endAngle startAngle endAngle in
  let start := polarToCartesian x y radius endAngle in
  let end_ := polarToCartesian x y radius startAngle in
  let largeArcFlag :=
    if JS.leb (endAngle - startAngle) 180 then "0"%string else "1"%string in
  [ Str "M"; Num (Point.x start); Num (Point.y start);
    Str "A"; Num (Q2R radius); Num (Q2R radius); Num 0%R;
    Str largeArcFlag; Num 0%R; Num (Point.x end_); Num (Point.y end_);
    Str "L"; Num (Q2R x); Num (Q2R y);
    Str "Z" ].

Section Kernel.

Variable LocalTZA : Z.

Definition timeToAngle (date : Date.t) : JS.number :=
  let hours := Date.getHours LocalTZA date in
  let minutes := Date.getMinutes LocalTZA date in
  ((inject_Z hours + inject_Z minutes / 60) * 15)%Q.

Definition angleToTime (angle : JS.number) (baseDate : Date.t) : Date.t :=
  let normalizedAngle := JS.rem (angle + 360) 360 in
  let totalHours := (normalizedAngle / 15)%Q in
  let hours := JS.Math_floor totalHours in
  let minutes := JS.Math_round ((totalHours - inject_Z hours) * 60) in
  Date.setHours LocalTZA baseDate hours minutes 0 0.

End Kernel.

Definition snapAngleTo15Min (angle : JS.number) : JS.number :=
  let step := 3.75%Q in
  (inject_Z (JS.Math_round (angle / step)) * step)%Q.

End TimeUtils.

(** ** The same conversions in binary64 arithmetic *)

Module Binary64.

(** The rational that a finite binary64 number stands for. *)
Definition toQ (x : float) : Q :=
  match Prim2SF x with
  | S754_finite s m e =>
      let v := (inject_Z (Z.pos m) * 2 ^ e)%Q in
      if s then (- v)%Q else v
  | _ => 0%Q
  end.

(** The binary64 number of an integer below [2^53] in absolute value. *)
Definition ofZ (z : Z) : float :=
  if z <? 0
  then PrimFloat.opp (PrimFloat.of_uint63 (Uint63.of_Z (- z)))
  else PrimFloat.of_uint63 (Uint63.of_Z z).

(** The binary64 number nearest to a rational whose reduced numerator
    and denominator are below [2^53]; [nan] outside that range. *)
Definition ofQ (q : Q) : float :=
  let r := Qred q in
  if (Z.abs (Qnum r) <? 2 ^ 53) && (Z.pos (Qden r) <? 2 ^ 53)
  then PrimFloat.div (ofZ (Qnum r)) (ofZ (Z.pos (Qden r)))
  else PrimFloat.nan.

(** [Math.floor], [Math.round] and [%] return the exact result for
    the value of their arguments. *)
Definition Math_floor (x : float) : Z := JS.Math_floor (toQ x).
Definition Math_round (x : float) : Z := JS.Math_round (toQ x).
Definition rem (x y : float) : float := ofQ (JS.rem (toQ x) (toQ y)).

(** [timeToAngle], from the values of [getHours()] and [getMinutes()]. *)
Definition timeToAngle (hours minutes : Z) : float :=
  ((ofZ hours + ofZ minutes / 60) * 15)%float.

(** [angleToTime], up to the arguments [hours] and [minutes] of its
    call of [setHours]. *)
Definition angleToTime_fields (angle : float) : Z * Z :=
  let normalizedAngle := rem (angle + 360)%float 360%float in
  let totalHours := (normalizedAngle / 15)%float in
  let hours := Math_floor totalHours in
  let minutes := Math_round ((totalHours - ofZ hours) * 60)%float in
  (hours, minutes).

Definition snapAngleTo15Min (angle : float) : float :=
  let step := 3.75%float in
  (ofZ (Math_round (angle / step)) * step)%float.

(** [Math.round(minutes / 15) * 15] of [addNow]. *)
Definition roundedMinutes (minutes : Z) : Z :=
  Math_round (ofZ minutes / 15)%float * 15.

(** The round trip, tried on each of the 1440 times of day. *)
Definition roundtripTable : bool :=
  forallb
    (fun h =>
       forallb
         (fun m =>
            let '(h', m') := angleToTime_fields (timeToAngle h m) in
            (h' =? h) && (m' =? m))
         (map Z.of_nat (seq 0 60)))
    (map Z.of_nat (seq 0 24)).

(** The rounding of [addNow], tried on each minute of the hour. *)
Definition roundedMinutesTable : bool :=
  forallb
    (fun m => roundedMinutes m =? JS.Math_round (inject_Z m / 15) * 15)
    (map Z.of_nat (seq 0 60)).

End Binary64.

(** ** The activity store ([chronodex.service.ts]) *)

Module Service.

(** The state of [ChronodexService]: the current value of
    [activitiesSubject] and the item stored in [localStorage] under
    [STORAGE_KEY] ([None] while nothing was saved), the latter as the
    array whose JSON text it holds. *)
Record t := mk {
  activitiesSubject : list Activity;
  localStorage : option (list Activity)
}.

Definition getActivities (this : t) : list Activity :=
  activitiesSubject this.

(** [this.activitiesSubject.next(updated); this.saveToStorage(updated)]. *)
Definition publish (updated : list Activity) : t :=
  {| activitiesSubject := updated; localStorage := Some updated |}.

Definition addActivity (activity : Activity) (this : t) : t :=
  let current := activitiesSubject this in
  let updated := current ++ [activity] in
  publish updated.

Definition updateActivity (activity : Activity) (this : t) : t :=
  let current := activitiesSubject this in
  match JS.findIndex (fun a => (id a =? id activity)%string) current with
  | Some index =>
      let updated := JS.setAt index activity current in
      publish updated
  | None => this
  end.

Definition deleteActivity (id' : string) (this : t) : t :=
  let current := activitiesSubject this in
  let updated := filter (fun a => negb (id a =? id')%string) current in
  publish updated.

Definition clearActivities (this : t) : t := publish [].

End Service.

(** ** Members that both component variants share, word for word *)

Module Layout.

(** [Activity & { level: number }]. *)
Record LeveledActivity := mkLeveled {
  activity : Activity;
  level : nat
}.

Definition areOverlapping (a b : Activity) : bool :=
  let start1 := Date.getTime (startTime a) in
  let end1 := Date.getTime (endTime a) in
  let start2 := Date.getTime (startTime b) in
  let end2 := Date.getTime (endTime b) in
  (start1 <? end2) && (end1 >? start2).

(** [[...activities].sort((a, b) => a.startTime.getTime() -
    b.startTime.getTime())].  [Array.prototype.sort] is stable; the
    stable sort of a list is unique, here computed by insertion. *)
Fixpoint insert (a : Activity) (sorted : list Activity) : list Activity :=
  match sorted with
  | [] => [a]
  | b :: rest =>
      if Date.getTime (startTime a) - Date.getTime (startTime b) <=? 0
      then a :: b :: rest
      else b :: insert a rest
  end.

Fixpoint sort (activities : list Activity) : list Activity :=
  match activities with
  | [] => []
  | a :: rest => insert a (sort rest)
  end.

(** The condition of the [while] loop. *)
Definition levelTaken (result : list LeveledActivity) (act : Activity)
    (level' : nat) : bool :=
  existsb (fun r => (level r =? level')%nat && areOverlapping act (activity r))
          result.

(** The [while] loop, started at [level']; [None] when [fuel]
    iterations do not reach its exit. *)
Fixpoint findLevel (fuel : nat) (result : list LeveledActivity)
    (act : Activity) (level' : nat) : option nat :=
  match fuel with
  | O => None
  | S fuel' =>
      if levelTaken result act level'
      then findLevel fuel' result act (S level')
      else Some level'
  end.

(** The [for] loop over [sorted], with [result] as accumulator.  The
    [while] loop is given one iteration more than [result] has
    elements. *)
Fixpoint placeAll (sorted : list Activity) (result : list LeveledActivity)
    : option (list LeveledActivity) :=
  match sorted with
  | [] => Some result
  | act :: rest =>
      match findLevel (S (List.length result)) result act 0 with
      | Some level' => placeAll rest (result ++ [mkLeveled act level'])
      | None => None
      end
  end.

Definition leveledActivities (activities : list Activity)
    : option (list LeveledActivity) :=
  placeAll (sort activities) [].

Section AddNow.

Variable LocalTZA : Z.

(** [colors[Math.floor(Math.random() * colors.length)]], for the value
    [random] in [0, 1) that [Math.random()] returned. *)
Definition getRandomColor (colors : list string) (random : JS.number)
    : string :=
  let length := inject_Z (Z.of_nat (List.length colors)) in
  nth (Z.to_nat (JS.Math_floor (random * length))) colors ""%string.

(** The activity that [addNow] builds, from the clock reading [now],
    the identifier that [crypto.randomUUID()] returned and the value
    of [Math.random()]. *)
Definition newActivity (colors : list string) (now : Date.t)
    (uuid : string) (random : JS.number) : Activity :=
  let startTime := now in
  let minutes := Date.getMinutes LocalTZA startTime in
  let roundedMinutes := JS.Math_round (inject_Z minutes / 15) * 15 in
  let startTime := Date.setMinutes LocalTZA startTime roundedMinutes 0 0 in
  let endTime :=
    Date.ofNumber (inject_Z (Date.getTime startTime) + 60 * 60 * 1000) in
  {| id := uuid;
     title := "New Activity";
     startTime := startTime;
     endTime := endTime;
     durationMinutes := 60;
     color := getRandomColor colors random |}.

End AddNow.

End Layout.

(** Field updates of an [Activity] (the object spread [{ ...activity }]
    followed by assignments). *)
Definition setStartTime (v : Date.t) (a : Activity) : Activity :=
  mkActivity (id a) (title a) v (endTime a) (durationMinutes a) (color a).
Definition setEndTime (v : Date.t) (a : Activity) : Activity :=
  mkActivity (id a) (title a) (startTime a) v (durationMinutes a) (color a).
Definition setDurationMinutes (v : JS.number) (a : Activity) : Activity :=
  mkActivity (id a) (title a) (startTime a) (endTime a) v (color a).

(** [a.id === draggedActivityId] for a [string | null] on the right. *)
Definition idIs (draggedActivityId : option string) (a : Activity) : bool :=
  match draggedActivityId with
  | Some d => (id a =? d)%string
  | None => false
  end.

(** [!draggedActivityId]: [null] and the empty string are falsy. *)
Definition noId (draggedActivityId : option string) : bool :=
  match draggedActivityId with
  | Some d => negb (JS.truthy_string d)
  | None => true
  end.

(** ** The controller with [start], [end] and [move] drags
    ([chronodex.component.ts], the variant of 600 by 600) *)

Module Component.

Inductive DragMode := mode_start | mode_end | mode_move.

Definition isMove (m : DragMode) : bool :=
  match m with mode_move => true | _ => false end.

(** The fields of [ChronodexComponent] that the handlers read or
    write.  [activities] is the array last emitted by the service's
    [activities$], which is the current value of its subject. *)
Record t := mk {
  chronodexService : Service.t;
  isDragging : bool;
  draggedActivityId : option string;
  dragMode : DragMode;
  dragStartAngle : JS.number;
  initialStartTime : option Date.t;
  initialEndTime : option Date.t;
  initialDuration : option JS.number;
  hasMoved : bool;
  isModalOpen : bool;
  editingActivity : option Activity
}.

Definition activities (this : t) : list Activity :=
  Service.getActivities (chronodexService this).

Definition predefinedColors : list string :=
  [ "#ff5e57"; "#1dd1a1"; "#54a0ff"; "#00d2d3";
    "#fbc531"; "#dcdde1"; "#eabfb9"; "#ffffff" ]%string.

Definition setService (s : Service.t) (this : t) : t :=
  mk s (isDragging this) (draggedActivityId this) (dragMode this)
     (dragStartAngle this) (initialStartTime this) (initialEndTime this)
     (initialDuration this) (hasMoved this) (isModalOpen this)
     (editingActivity this).

Definition setHasMoved (b : bool) (this : t) : t :=
  mk (chronodexService this) (isDragging this) (draggedActivityId this)
     (dragMode this) (dragStartAngle this) (initialStartTime this)
     (initialEndTime this) (initialDuration this) b (isModalOpen this)
     (editingActivity this).

Definition setModal (open : bool) (editing : option Activity) (this : t)
    : t :=
  mk (chronodexService this) (isDragging this) (draggedActivityId this)
     (dragMode this) (dragStartAngle this) (initialStartTime this)
     (initialEndTime this) (initialDuration this) (hasMoved this)
     open editing.

(** [initialDuration || durationMinutes]: [undefined] and [0] are
    falsy. *)
Definition orDuration (initialDuration : option JS.number)
    (durationMinutes : JS.number) : JS.number :=
  match initialDuration with
  | Some d => if JS.eqb d 0 then durationMinutes else d
  | None => durationMinutes
  end.

Section Handlers.

Variable LocalTZA : Z.

Definition addNow (now : Date.t) (uuid : string) (random : JS.number)
    (this : t) : t :=
  let newActivity :=
    Layout.newActivity LocalTZA predefinedColors now uuid random in
  setService (Service.addActivity newActivity (chronodexService this)) this.

(** [handleMouseDown(event, activityId, mode)]; [angle] is
    [getAngleFromEvent(event)]. *)
Definition handleMouseDown (angle : JS.number) (activityId : string)
    (mode : DragMode) (this : t) : t :=
  match find (fun a => (id a =? activityId)%string) (activities this) with
  | Some activity =>
      mk (chronodexService this) true (Some activityId) mode angle
         (Some (startTime activity)) (Some (endTime activity))
         (Some (durationMinutes activity)) false
         (isModalOpen this) (editingActivity this)
  | None =>
      mk (chronodexService this) true (Some activityId) mode angle
         (initialStartTime this) (initialEndTime this)
         (initialDuration this) (hasMoved this)
         (isModalOpen this) (editingActivity this)
  end.

(** The value of [updatedActivity] in [onMove] when [hasChanged] is
    computed. *)
Definition updatedActivity (this : t) (activity : Activity)
    (snappedAngle : JS.number) : Activity :=
  match dragMode this, initialStartTime this, initialEndTime this with
  | mode_move, Some initialStartTime, Some initialEndTime =>
      let angleDiff :=
        (snappedAngle
         - TimeUtils.snapAngleTo15Min (dragStartAngle this))%Q in
      let timeDiffMs := ((angleDiff / 15) * 60 * 60 * 1000)%Q in
      let a1 :=
        setStartTime
          (Date.ofNumber
             (inject_Z (Date.getTime initialStartTime) + timeDiffMs))
          activity in
      let a2 :=
        setEndTime
          (Date.ofNumber
             (inject_Z (Date.getTime initialEndTime) + timeDiffMs))
          a1 in
      setDurationMinutes
        (orDuration (initialDuration this) (durationMinutes activity)) a2
  | mode_end, _, _ =>
      let a1 :=
        setEndTime
          (TimeUtils.angleToTime LocalTZA snappedAngle (startTime activity))
          activity in
      let diff :=
        ((inject_Z (Date.getTime (endTime a1))
          - inject_Z (Date.getTime (startTime a1))) / (1000 * 60))%Q in
      let diff := if JS.ltb diff 0 then (diff + 24 * 60)%Q else diff in
      setDurationMinutes diff a1
  | mode_start, _, _ =>
      let a1 :=
        setStartTime
          (TimeUtils.angleToTime LocalTZA snappedAngle (endTime activity))
          activity in
      let diff :=
        ((inject_Z (Date.getTime (endTime a1))
          - inject_Z (Date.getTime (startTime a1))) / (1000 * 60))%Q in
      let diff := if JS.ltb diff 0 then (diff + 24 * 60)%Q else diff in
      setDurationMinutes diff a1
  | mode_move, _, _ => activity
  end.

(** [onMove(event)] up to its last statement: the component after
    the handler, and the argument of the call
    [chronodexService.updateActivity(...)] when the handler makes
    it.  [angle] is [getAngleFromEvent(event)]. *)
Definition onMove_request (angle : JS.number) (this : t)
    : t * option Activity :=
  if negb (isDragging this) || noId (draggedActivityId this)
  then (this, None)
  else
    let this :=
      if negb (hasMoved this)
         && JS.gtb (JS.Math_abs (angle - dragStartAngle this)) 2
      then setHasMoved true this
      else this in
    if negb (hasMoved this) && isMove (dragMode this)
    then (this, None)
    else
      let snappedAngle := TimeUtils.snapAngleTo15Min angle in
      match find (idIs (draggedActivityId this)) (activities this) with
      | Some activity =>
          let updatedActivity :=
            updatedActivity this activity snappedAngle in
          let hasChanged :=
            negb (Date.getTime (startTime updatedActivity)
                  =? Date.getTime (startTime activity))
            || negb (Date.getTime (endTime updatedActivity)
                     =? Date.getTime (endTime activity)) in
          if hasChanged then (this, Some updatedActivity)
          else (this, None)
      | None => (this, None)
      end.

Definition onMove (angle : JS.number) (this : t) : t :=
  match onMove_request angle this with
  | (this, Some updatedActivity) =>
      setService
        (Service.updateActivity updatedActivity (chronodexService this))
        this
  | (this, None) => this
  end.

End Handlers.

Definition onEnd (this : t) : t :=
  mk (chronodexService this) false None (dragMode this)
     (dragStartAngle this) (initialStartTime this) (initialEndTime this)
     (initialDuration this) (hasMoved this) (isModalOpen this)
     (editingActivity this).

Definition openEditModal (activity : Activity) (this : t) : t :=
  if hasMoved this then this else setModal true (Some activity) this.

Definition closeModal (this : t) : t := setModal false None this.

Definition saveActivity (this : t) : t :=
  match editingActivity this with
  | Some editing =>
      closeModal
        (setService
           (Service.updateActivity editing (chronodexService this)) this)
  | None => this
  end.

Definition deleteActivity (this : t) : t :=
  match editingActivity this with
  | Some editing =>
      closeModal
        (setService
           (Service.deleteActivity (id editing) (chronodexService this))
           this)
  | None => this
  end.

(** [clearAll()], for the answer [confirmed] to the prompt. *)
Definition clearAll (confirmed : bool) (this : t) : t :=
  if confirmed
  then setService (Service.clearActivities (chronodexService this)) this
  else this.

End Component.

(** ** The controller with [start] and [end] drags only
    ([chronodex.component.ts], the variant of 500 by 500) *)

Module ComponentV2.

Inductive DragMode := mode_start | mode_end.

Record t := mk {
  chronodexService : Service.t;
  isDragging : bool;
  draggedActivityId : option string;
  dragMode : DragMode;
  isModalOpen : bool;
  editingActivity : option Activity
}.

Definition activities (this : t) : list Activity :=
  Service.getActivities (chronodexService this).

(** The palette of [getRandomColor]. *)
Definition colors : list string :=
  [ "#ff9f43"; "#00d2d3"; "#54a0ff"; "#5f27cd";
    "#ff6b6b"; "#48dbfb"; "#1dd1a1" ]%string.

Definition setService (s : Service.t) (this : t) : t :=
  mk s (isDragging this) (draggedActivityId this) (dragMode this)
     (isModalOpen this) (editingActivity this).

Definition setModal (open : bool) (editing : option Activity) (this : t)
    : t :=
  mk (chronodexService this) (isDragging this) (draggedActivityId this)
     (dragMode this) open editing.

Definition handleMouseDown (activityId : string) (mode : DragMode)
    (this : t) : t :=
  mk (chronodexService this) true (Some activityId) mode
     (isModalOpen this) (editingActivity this).

Section Handlers.

Variable LocalTZA : Z.

Definition addNow (now : Date.t) (uuid : string) (random : JS.number)
    (this : t) : t :=
  let newActivity := Layout.newActivity LocalTZA colors now uuid random in
  setService (Service.addActivity newActivity (chronodexService this)) this.

(** The value of [updatedActivity] in [onMouseMove] when it is passed
    to the service. *)
Definition updatedActivity (this : t) (activity : Activity)
    (snappedAngle : JS.number) : Activity :=
  let a1 :=
    match dragMode this with
    | mode_end =>
        setEndTime
          (TimeUtils.angleToTime LocalTZA snappedAngle (startTime activity))
          activity
    | mode_start =>
        setStartTime
          (TimeUtils.angleToTime LocalTZA snappedAngle (endTime activity))
          activity
    end in
  let diff :=
    ((inject_Z (Date.getTime (endTime a1))
      - inject_Z (Date.getTime (startTime a1))) / (1000 * 60))%Q in
  let diff := if JS.ltb diff 0 then (diff + 24 * 60)%Q else diff in
  setDurationMinutes diff a1.

(** The argument of the call [chronodexService.updateActivity(...)]
    that [onMouseMove(event)] makes, if it makes one.  [angle] is
    [getAngleFromEvent(event)]. *)
Definition onMouseMove_request (angle : JS.number) (this : t)
    : option Activity :=
  if negb (isDragging this) || noId (draggedActivityId this)
  then None
  else
    let snappedAngle := TimeUtils.snapAngleTo15Min angle in
    match find (idIs (draggedActivityId this)) (activities this) with
    | Some activity => Some (updatedActivity this activity snappedAngle)
    | None => None
    end.

Definition onMouseMove (angle : JS.number) (this : t) : t :=
  match onMouseMove_request angle this with
  | Some updatedActivity =>
      setService
        (Service.updateActivity updatedActivity (chronodexService this))
        this
  | None => this
  end.

End Handlers.

Definition onMouseUp (this : t) : t :=
  mk (chronodexService this) false None (dragMode this)
     (isModalOpen this) (editingActivity this).

Definition openEditModal (activity : Activity) (this : t) : t :=
  setModal true (Some activity) this.

Definition closeModal (this : t) : t := setModal false None this.

Definition saveActivity (this : t) : t :=
  match editingActivity this with
  | Some editing =>
      closeModal
        (setService
           (Service.updateActivity editing (chronodexService this)) this)
  | None => this
  end.

Definition deleteActivity (this : t) : t :=
  match editingActivity this with
  | Some editing =>
      closeModal
        (setService
           (Service.deleteActivity (id editing) (chronodexService this))
           this)
  | None => this
  end.

End ComponentV2.

(** ** The specification's formula for the duration *)

Module Spec.

(** "[(endTime - startTime)] in minutes, wrapped into [0, 1440) by
    adding 1440 if negative". *)
Definition wrappedDuration (startTime endTime : Date.t) : JS.number :=
  let minutes :=
    ((inject_Z (Date.getTime endTime) - inject_Z (Date.getTime startTime))
     / 60000)%Q in
  if JS.ltb minutes 0 then (minutes + 1440)%Q else minutes.

End Spec.

(** ** Notions used to state the properties *)

Module Notions.

(** The time value of [hh:mm] on the local day [day]. *)
Definition at_ (LocalTZA day hh mm : Z) : Date.t :=
  Date.UTC LocalTZA (Date.MakeDate day (Date.MakeTime hh mm 0 0)).

(** An activity that occupies the time slot from [from] to [to]. *)
Definition slot (name : string) (from to : Date.t) : Activity :=
  mkActivity name name from to (Spec.wrappedDuration from to) "#ffffff".

(** The start point (after [M]) and the end point (the last two
    arguments of [A]) of an arc path. *)
Definition arcStart (d : list TimeUtils.PathItem) : option Point.t :=
  match d with
  | TimeUtils.Str _ :: TimeUtils.Num px :: TimeUtils.Num py :: _ =>
      Some (Point.mk px py)
  | _ => None
  end.

Definition arcEnd (d : list TimeUtils.PathItem) : option Point.t :=
  match skipn 9 d with
  | TimeUtils.Num px :: TimeUtils.Num py :: _ => Some (Point.mk px py)
  | _ => None
  end.

(** The index of the grid point an angle snaps to. *)
Definition gridIndex (angle : Q) : Z := JS.Math_round (angle / 3.75).

(** [a] starts no later than [b]. *)
Definition startsBefore (a b : Activity) : Prop :=
  Date.getTime (startTime a) <= Date.getTime (startTime b).

(** [r] sits at the lowest level that is free among [placed]. *)
Definition lowestFree (placed : list Layout.LeveledActivity)
    (r : Layout.LeveledActivity) : Prop :=
  (forall p,
     In p placed -> Layout.level p = Layout.level r ->
     Layout.areOverlapping (Layout.activity r) (Layout.activity p)
     = false) /\
  (forall k,
     (k < Layout.level r)%nat ->
     exists p,
       In p placed /\ Layout.level p = k /\
       Layout.areOverlapping (Layout.activity r) (Layout.activity p)
       = true).

(** How many placed activities sit at level [k] or above. *)
Definition countFrom (k : nat) (result : list Layout.LeveledActivity)
    : nat :=
  List.length (filter (fun r => (k <=? Layout.level r)%nat) result).

(** The handler has passed the threshold test of [move] drags. *)
Definition pastThreshold (angle : Q) (this : Component.t) : bool :=
  Component.hasMoved this
  || JS.gtb (JS.Math_abs (angle - Component.dragStartAngle this)) 2
  || negb (Component.isMove (Component.dragMode this)).

(** [hasChanged], for the updated activity [u] and the stored [act]. *)
Definition changed (u act : Activity) : bool :=
  negb (Date.getTime (startTime u) =? Date.getTime (startTime act))
  || negb (Date.getTime (endTime u) =? Date.getTime (endTime act)).



End Notions.

(** ** Concrete states used in examples *)

Module Examples.

(** An activity from 09:00 to 10:00 (UTC, first day of the epoch). *)
Definition lunch : Activity :=
  mkActivity "a" "Lunch" (Notions.at_ 0 0 9 0) (Notions.at_ 0 0 10 0)
    60 "#54a0ff".

Definition store : Service.t := Service.mk [lunch] (Some [lunch]).

(** The component at rest, showing [lunch]. *)
Definition idle : Component.t :=
  Component.mk store false None Component.mode_end 0 None None None
    false false None.

(** The modal is open on a copy of [lunch] whose end was set to 11:00. *)
Definition editing : Component.t :=
  Component.mk store false None Component.mode_end 0 None None None
    false true
    (Some (setEndTime (Notions.at_ 0 0 11 0) lunch)).



(** The simpler variant, with the end handle of [lunch] pressed. *)
Definition pressedV2 : ComponentV2.t :=
  ComponentV2.handleMouseDown "a" ComponentV2.mode_end
    (ComponentV2.mk store false None ComponentV2.mode_end false None).

End Examples.

(** ** The overlap query of the store ([chronodex.service.ts]) *)

Module ServiceQueries.

(** [excludeId && a.id === excludeId], for the optional argument
    [excludeId] ([None] when it is left out). *)
Definition isExcluded (excludeId : option string) (a : Activity) : bool :=
  match excludeId with
  | Some e => JS.truthy_string e && (id a =? e)%string
  | None => false
  end.

Definition isOverlapping (newActivity : Activity) (excludeId : option string)
    (this : Service.t) : bool :=
  let activities := Service.activitiesSubject this in
  existsb
    (fun a =>
       if isExcluded excludeId a then false
       else
         let start1 := Date.getTime (startTime newActivity) in
         let end1 := Date.getTime (endTime newActivity) in
         let start2 := Date.getTime (startTime a) in
         let end2 := Date.getTime (endTime a) in
         (start1 <? end2) && (end1 >? start2))
    activities.

End ServiceQueries.

(** ** What the component hands to the template
    ([chronodex.component.ts], both variants) *)

Module Rendering.

(** [Array.from({ length: 24 }, (_, i) => i)] and
    [Array.from({ length: 48 }, (_, i) => i / 2)]. *)
Definition hours : list JS.number :=
  map (fun i => inject_Z (Z.of_nat i)) (seq 0 24).

Definition halfHours : list JS.number :=
  map (fun i => (inject_Z (Z.of_nat i) / 2)%Q) (seq 0 48).

Definition getLabelAlignment (angle : JS.number) : string :=
  let normalizedAngle := JS.rem (JS.rem angle 360 + 360) 360 in
  if JS.gtb normalizedAngle 0 && JS.ltb normalizedAngle 180 then "start"
  else if JS.gtb normalizedAngle 180 && JS.ltb normalizedAngle 360 then "end"
  else "middle".

Section View.

(** The fields [center] and [radius] of the component, and the offset
    of local time. *)
Variables center radius : JS.number.
Variable LocalTZA : Z.

Definition getActivityRadius (level : nat) : JS.number :=
  (radius + inject_Z (Z.of_nat level) * 25)%Q.


Definition getCurrentTimeRotation (currentTime : Date.t) : JS.number :=
  TimeUtils.timeToAngle LocalTZA currentTime.

Definition getHourPoint (hour rOffset : JS.number) : Point.t :=
  let angle := (hour * 15)%Q in
  TimeUtils.polarToCartesian center center (radius + rOffset) angle.



Definition getMidPointAngle (activity : Activity) : JS.number :=
  let startAngle := TimeUtils.timeToAngle LocalTZA (startTime activity) in
  let endAngle := TimeUtils.timeToAngle LocalTZA (endTime activity) in
  let endAngle :=
    if JS.ltb endAngle startAngle then (endAngle + 360)%Q else endAngle in
  ((startAngle + endAngle) / 2)%Q.

Definition getPointOnCircle (angle rOffset : JS.number) (level : nat)
    : Point.t :=
  let r := getActivityRadius level in
  TimeUtils.polarToCartesian center center (r + rOffset) angle.

End View.

End Rendering.

(** ** Sequences of calls to the store *)

Module Calls.

(** A call of one of the four mutating methods of the service. *)
Inductive Call :=
| Add (activity : Activity)
| Update (activity : Activity)
| Delete (id' : string)
| Clear.

Definition call (c : Call) (this : Service.t) : Service.t :=
  match c with
  | Add a => Service.addActivity a this
  | Update a => Service.updateActivity a this
  | Delete i => Service.deleteActivity i this
  | Clear => Service.clearActivities this
  end.

Definition run (calls : list Call) (this : Service.t) : Service.t :=
  fold_left (fun s c => call c s) calls this.

(** The persisted item is the array that the subject holds. *)
Definition inSync (this : Service.t) : Prop :=
  Service.localStorage this = Some (Service.activitiesSubject this).

(** The service when it has just been constructed on a storage that
    holds no item. *)
Definition fresh : Service.t := Service.mk [] None.

End Calls.

(** ** Proof automation *)

Module Tactics.

(** Division by a numeral and injected integer literals, in the form
    that [lra] understands. *)
Ltac qconst :=
  unfold Qdiv in *;
  repeat match goal with
    | |- context [Qinv (Qmake ?n ?d)] =>
        let v := eval vm_compute in (Qinv (Qmake n d)) in
        change (Qinv (Qmake n d)) with v
    | H : context [Qinv (Qmake ?n ?d)] |- _ =>
        let v := eval vm_compute in (Qinv (Qmake n d)) in
        change (Qinv (Qmake n d)) with v in H
    | |- context [inject_Z (Zpos ?p)] =>
        let v := eval cbv in (inject_Z (Zpos p)) in
        change (inject_Z (Zpos p)) with v
    | H : context [inject_Z (Zpos ?p)] |- _ =>
        let v := eval cbv in (inject_Z (Zpos p)) in
        change (inject_Z (Zpos p)) with v in H
    | |- context [inject_Z (Zneg ?p)] =>
        let v := eval cbv in (inject_Z (Zneg p)) in
        change (inject_Z (Zneg p)) with v
    | H : context [inject_Z (Zneg ?p)] |- _ =>
        let v := eval cbv in (inject_Z (Zneg p)) in
        change (inject_Z (Zneg p)) with v in H
    | |- context [inject_Z Z0] => change (inject_Z Z0) with 0%Q
    | H : context [inject_Z Z0] |- _ => change (inject_Z Z0) with 0%Q in H
    end.

(** Unfolds the date arithmetic down to [Z.div] and [Z.modulo] by
    constants and lets [lia] finish. *)
Ltac date_lia :=
  unfold Date.getHours, Date.getMinutes, Date.getSeconds,
    Date.getMilliseconds, Date.localDay, Date.setHours, Date.setMinutes,
    Date.LocalTime, Date.UTC, Date.MakeDate, Date.MakeTime, Date.Day,
    Date.TimeWithinDay, Date.HourFromTime, Date.MinFromTime,
    Date.SecFromTime, Date.msFromTime, Date.getTime, Date.msPerDay,
    Date.msPerHour, Date.msPerMinute, Date.msPerSecond in *;
  Z.div_mod_to_equations; lia.

End Tactics.

(** * Part II: properties *)

(** ** Numbers *)

Module JSFacts.
Import JS Tactics.

Lemma ltb_lt (x y : number) : ltb x y = true <-> (x < y)%Q.
Proof.
  unfold ltb. rewrite negb_true_iff.
  destruct (Qle_bool y x) eqn:E.
  - apply Qle_bool_iff in E. split; [discriminate | intro H; exfalso; lra].
  - split; [intros _ | reflexivity].
    apply Qnot_le_lt. intro H. apply Qle_bool_iff in H. congruence.
Qed.

Lemma ltb_ge (x y : number) : ltb x y = false <-> (y <= x)%Q.
Proof. unfold ltb. rewrite negb_false_iff. apply Qle_bool_iff. Qed.

Lemma gtb_gt (x y : number) : gtb x y = true <-> (y < x)%Q.
Proof. apply ltb_lt. Qed.

Lemma gtb_le (x y : number) : gtb x y = false <-> (x <= y)%Q.
Proof. apply ltb_ge. Qed.

Lemma geb_ge (x y : number) : geb x y = true <-> (y <= x)%Q.
Proof. apply Qle_bool_iff. Qed.

Lemma geb_lt (x y : number) : geb x y = false <-> (x < y)%Q.
Proof.
  unfold geb, leb. split; intro H.
  - apply ltb_lt. unfold ltb. now rewrite H.
  - apply ltb_lt in H. unfold ltb in H. now apply negb_true_iff in H.
Qed.

Lemma inject_Z_succ (z : Z) : (inject_Z (z + 1) == inject_Z z + 1)%Q.
Proof. rewrite inject_Z_plus. reflexivity. Qed.

(** An integer in a half-open range, seen as a rational. *)
Lemma inject_bounds (z lo hi : Z) :
  lo <= z < hi ->
  (inject_Z lo <= inject_Z z)%Q /\ (inject_Z z <= inject_Z hi - 1)%Q.
Proof.
  intros [H1 H2]. split.
  - now rewrite <- Zle_Qle.
  - assert (E : (inject_Z hi - 1 == inject_Z (hi - 1))%Q).
    { unfold Z.sub. rewrite inject_Z_plus. reflexivity. }
    rewrite E, <- Zle_Qle. lia.
Qed.

(** [Qfloor] is characterised by the unit interval its argument lies in. *)
Lemma floor_unique (x : Q) (z : Z) :
  (inject_Z z <= x)%Q -> (x < inject_Z z + 1)%Q -> Qfloor x = z.
Proof.
  intros Hlo Hhi.
  pose proof (Qfloor_le x) as H1.
  pose proof (Qlt_floor x) as H2.
  rewrite inject_Z_succ in H2.
  assert (A : (inject_Z (Qfloor x) < inject_Z (z + 1))%Q)
    by (rewrite inject_Z_succ; lra).
  assert (B : (inject_Z z < inject_Z (Qfloor x + 1))%Q)
    by (rewrite inject_Z_succ; lra).
  rewrite <- Zlt_Qlt in A, B. lia.
Qed.

Lemma round_unique (x : Q) (z : Z) :
  (inject_Z z - (1 # 2) <= x)%Q -> (x < inject_Z z + (1 # 2))%Q ->
  Math_round x = z.
Proof.
  intros Hlo Hhi. unfold Math_round. apply floor_unique; lra.
Qed.

Lemma round_inject (x : Q) (z : Z) : (x == inject_Z z)%Q -> Math_round x = z.
Proof. intro H. apply round_unique; rewrite H; lra. Qed.

(** Truncation agrees with [Qfloor] on non-negative numbers. *)
Lemma trunc_nonneg (x : Q) : (0 <= x)%Q -> trunc x = Qfloor x.
Proof.
  destruct x as [n d]. unfold trunc, Qfloor, Qle. simpl. intro H.
  apply Z.quot_div_nonneg; lia.
Qed.

Lemma trunc_inject (x : Q) (z : Z) : (x == inject_Z z)%Q -> trunc x = z.
Proof.
  destruct x as [n d]. unfold trunc, Qeq. simpl. intro H.
  assert (E : n = z * Z.pos d) by lia.
  rewrite E. apply Z.quot_mul. lia.
Qed.

(** [x % 360] on the second turn of the circle. *)
Lemma rem_360 (x : Q) :
  (360 <= x)%Q -> (x < 720)%Q -> rem x 360 = (x - 360 * inject_Z 1)%Q.
Proof.
  intros Hlo Hhi. unfold rem.
  assert (E : trunc (x / 360) = 1).
  { rewrite trunc_nonneg by (qconst; lra).
    apply floor_unique; qconst; lra. }
  now rewrite E.
Qed.

End JSFacts.

(** ** Dates *)

Module DateFacts.
Import Date Tactics.

Lemma getHours_range tz d : 0 <= getHours tz d < 24.
Proof. date_lia. Qed.

Lemma getMinutes_range tz d : 0 <= getMinutes tz d < 60.
Proof. date_lia. Qed.

(** Setting an in-range hour and minute yields exactly that local time
    of day on the same local calendar day. *)
Lemma setHours_fields tz d h m :
  0 <= h < 24 -> 0 <= m < 60 ->
  let r := setHours tz d h m 0 0 in
  getHours tz r = h /\ getMinutes tz r = m /\ getSeconds tz r = 0 /\
  getMilliseconds tz r = 0 /\ localDay tz r = localDay tz d.
Proof. intros Hh Hm r. subst r. repeat split; date_lia. Qed.

End DateFacts.

(** ** Binary64 evaluation agrees on the times of day *)

Module Binary64Facts.

Lemma in_range (n : nat) (z : Z) :
  0 <= z < Z.of_nat n -> In z (map Z.of_nat (seq 0 n)).
Proof.
  intro H. apply in_map_iff. exists (Z.to_nat z). split; [lia |].
  apply in_seq. lia.
Qed.

Lemma roundtripTable_holds : Binary64.roundtripTable = true.
Proof. vm_compute. reflexivity. Qed.

Lemma roundedMinutesTable_holds : Binary64.roundedMinutesTable = true.
Proof. vm_compute. reflexivity. Qed.

(** In binary64 arithmetic too, the angle of [h:m] is taken back to
    hour [h] and minute [m]. *)
Lemma binary64_roundtrip (h m : Z) :
  0 <= h < 24 -> 0 <= m < 60 ->
  Binary64.angleToTime_fields (Binary64.timeToAngle h m) = (h, m).
Proof.
  intros Hh Hm. pose proof roundtripTable_holds as T.
  unfold Binary64.roundtripTable in T.
  rewrite forallb_forall in T. specialize (T h (in_range 24 h Hh)).
  rewrite forallb_forall in T. specialize (T m (in_range 60 m Hm)).
  destruct (Binary64.angleToTime_fields _) as [h' m'].
  apply andb_true_iff in T. destruct T as [T1 T2].
  apply Z.eqb_eq in T1, T2. now subst.
Qed.

Lemma binary64_roundedMinutes (m : Z) :
  0 <= m < 60 ->
  Binary64.roundedMinutes m = JS.Math_round (inject_Z m / 15) * 15.
Proof.
  intro Hm. pose proof roundedMinutesTable_holds as T.
  unfold Binary64.roundedMinutesTable in T.
  rewrite forallb_forall in T. specialize (T m (in_range 60 m Hm)).
  now apply Z.eqb_eq in T.
Qed.

End Binary64Facts.

(** ** Time of day and angle *)

Module TimeUtilsFacts.
Import Tactics TimeUtils JSFacts DateFacts.

Lemma timeToAngle_range tz d :
  (0 <= timeToAngle tz d)%Q /\ (timeToAngle tz d < 360)%Q.
Proof.
  unfold timeToAngle.
  pose proof (inject_bounds _ _ _ (getHours_range tz d)) as [H1 H2].
  pose proof (inject_bounds _ _ _ (getMinutes_range tz d)) as [H3 H4].
  qconst. split; lra.
Qed.

(** On an angle that encodes hour [h] and minute [m], [angleToTime]
    sets exactly that time of day. *)
Lemma angleToTime_of_fields tz (angle : Q) (base : Date.t) (h m : Z) :
  0 <= h < 24 -> 0 <= m < 60 ->
  (angle == (inject_Z h + inject_Z m / 60) * 15)%Q ->
  angleToTime tz angle base = Date.setHours tz base h m 0 0.
Proof.
  intros Hh Hm Ha.
  apply inject_bounds in Hh, Hm.
  destruct Hh as [Hh0 Hh1], Hm as [Hm0 Hm1]. qconst.
  unfold angleToTime.
  rewrite rem_360 by lra.
  assert (Eh : JS.Math_floor
                 (((angle + 360 - 360 * inject_Z 1) / 15)%Q) = h).
  { apply floor_unique; qconst; lra. }
  rewrite Eh.
  assert (Em : JS.Math_round
                 (((angle + 360 - 360 * inject_Z 1) / 15 - inject_Z h)
                  * 60)%Q = m).
  { apply round_unique; qconst; lra. }
  now rewrite Em.
Qed.

(** C1.  For every date [t] (so for every time of day, hours 0..23 and
    minutes 0..59), [angleToTime (timeToAngle t) t] has the hours and the
    minutes of [t], seconds and milliseconds zero, and lies on the same
    local calendar day; it is [t] rounded down to the minute, hence
    less than one minute away from [t].  Evaluated in binary64
    arithmetic, the round trip passes the same hours and minutes to
    [setHours]. *)
Theorem angleToTime_timeToAngle_roundtrip tz (t : Date.t) :
  let r := angleToTime tz (timeToAngle tz t) t in
  Date.getHours tz r = Date.getHours tz t /\
  Date.getMinutes tz r = Date.getMinutes tz t /\
  Date.getSeconds tz r = 0 /\
  Date.getMilliseconds tz r = 0 /\
  Date.localDay tz r = Date.localDay tz t /\
  0 <= Date.getTime t - Date.getTime r < Date.msPerMinute /\
  Binary64.angleToTime_fields
    (Binary64.timeToAngle (Date.getHours tz t) (Date.getMinutes tz t))
  = (Date.getHours tz t, Date.getMinutes tz t).
Proof.
  intro r. subst r.
  rewrite (angleToTime_of_fields tz _ t
             (Date.getHours tz t) (Date.getMinutes tz t)
             (getHours_range tz t) (getMinutes_range tz t))
    by reflexivity.
  pose proof (setHours_fields tz t _ _
                (getHours_range tz t) (getMinutes_range tz t))
    as (F1 & F2 & F3 & F4 & F5).
  repeat split; try assumption; try date_lia.
  apply Binary64Facts.binary64_roundtrip;
    [apply getHours_range | apply getMinutes_range].
Qed.

End TimeUtilsFacts.

(** ** Snapping to the quarter-hour grid *)

Module SnapFacts.
Import Tactics TimeUtils Notions JSFacts DateFacts TimeUtilsFacts.

Lemma snap_gridIndex (angle : Q) :
  snapAngleTo15Min angle = (inject_Z (gridIndex angle) * 3.75)%Q.
Proof. reflexivity. Qed.

Lemma gridIndex_grid (k : Z) : gridIndex (inject_Z k * 3.75) = k.
Proof.
  unfold gridIndex. apply round_inject. field.
Qed.

(** The grid index is monotone, so angles of the dial stay on the
    dial's 97 grid points. *)
Lemma gridIndex_range (angle : Q) :
  (0 <= angle)%Q -> (angle <= 360)%Q -> 0 <= gridIndex angle <= 96.
Proof.
  intros Hlo Hhi. unfold gridIndex, JS.Math_round.
  pose proof (Qfloor_resp_le 0 (angle / 3.75 + (1 # 2))) as L.
  pose proof (Qfloor_resp_le (angle / 3.75 + (1 # 2)) (96 + (1 # 2))) as U.
  change (Qfloor 0) with 0 in L.
  change (Qfloor (96 + (1 # 2))) with 96 in U.
  split; [apply L | apply U]; qconst; lra.
Qed.

(** C5.  For every angle, [snapAngleTo15Min] returns an integer multiple
    of 3.75, and snapping a snapped angle returns it unchanged. *)
Theorem snapAngleTo15Min_multiple_idempotent (angle : Q) :
  (exists k : Z, snapAngleTo15Min angle == inject_Z k * 3.75)%Q /\
  (snapAngleTo15Min (snapAngleTo15Min angle) == snapAngleTo15Min angle)%Q.
Proof.
  split.
  - exists (gridIndex angle). rewrite snap_gridIndex. reflexivity.
  - rewrite (snap_gridIndex angle), snap_gridIndex, gridIndex_grid.
    reflexivity.
Qed.

(** Angles just below a full turn snap to the full turn. *)
Lemma gridIndex_top (angle : Q) :
  (358.125 < angle)%Q -> (angle < 360)%Q -> gridIndex angle = 96.
Proof.
  intros Hlo Hhi. unfold gridIndex.
  apply round_unique; qconst; lra.
Qed.

(** A full turn is midnight. *)
Lemma angleToTime_full_turn tz (angle : Q) (base : Date.t) :
  (angle == 360)%Q ->
  angleToTime tz angle base = Date.setHours tz base 0 0 0 0.
Proof.
  intro Ha. unfold angleToTime.
  assert (Et : JS.trunc ((angle + 360) / 360) = 2).
  { apply trunc_inject. rewrite Ha. reflexivity. }
  unfold JS.rem. rewrite Et.
  assert (Eh : JS.Math_floor
                 (((angle + 360 - 360 * inject_Z 2) / 15)%Q) = 0).
  { apply floor_unique; rewrite Ha; qconst; lra. }
  rewrite Eh.
  assert (Em : JS.Math_round
                 (((angle + 360 - 360 * inject_Z 2) / 15 - inject_Z 0)
                  * 60)%Q = 0).
  { apply round_unique; rewrite Ha; qconst; lra. }
  now rewrite Em.
Qed.

(** C10.  Every angle in (358.125, 360), an input inside [0, 360),
    snaps to exactly 360, which is outside [0, 360); [angleToTime] maps
    that snapped angle to 00:00 of the base date's day. *)
Theorem snap_reaches_360_and_maps_to_midnight
    tz (angle : Q) (base : Date.t) :
  (358.125 < angle)%Q -> (angle < 360)%Q ->
  (0 <= angle)%Q /\
  (snapAngleTo15Min angle == 360)%Q /\
  ~ (snapAngleTo15Min angle < 360)%Q /\
  angleToTime tz 360 base = Date.setHours tz base 0 0 0 0 /\
  let r := angleToTime tz (snapAngleTo15Min angle) base in
  Date.getHours tz r = 0 /\ Date.getMinutes tz r = 0 /\
  Date.getSeconds tz r = 0 /\ Date.getMilliseconds tz r = 0 /\
  Date.localDay tz r = Date.localDay tz base.
Proof.
  intros Hlo Hhi.
  assert (Es : (snapAngleTo15Min angle == 360)%Q).
  { rewrite snap_gridIndex, (gridIndex_top angle Hlo Hhi). reflexivity. }
  split; [lra |].
  split; [exact Es |].
  split; [rewrite Es; lra |].
  split; [apply angleToTime_full_turn; reflexivity |].
  intro r. subst r. rewrite (angleToTime_full_turn tz _ base Es).
  apply (setHours_fields tz base 0 0); lia.
Qed.

Lemma snap_reaches_360_witness :
  (0 <= 359)%Q /\
  (snapAngleTo15Min 359 == 360)%Q /\
  ~ (snapAngleTo15Min 359 < 360)%Q /\
  angleToTime 0 360 0 = Date.setHours 0 0 0 0 0 0 /\
  let r := angleToTime 0 (snapAngleTo15Min 359) 0 in
  Date.getHours 0 r = 0 /\ Date.getMinutes 0 r = 0 /\
  Date.getSeconds 0 r = 0 /\ Date.getMilliseconds 0 r = 0 /\
  Date.localDay 0 r = Date.localDay 0 0.
Proof.
  apply (snap_reaches_360_and_maps_to_midnight 0 359 0); reflexivity.
Defined.

End SnapFacts.

(** ** The store: unknown identifiers *)

Module ServiceFacts.
Import Service.

Lemma findIndex_none {A} (p : A -> bool) (l : list A) :
  (forall a, In a l -> p a = false) -> JS.findIndex p l = None.
Proof.
  induction l as [| x l IH]; intro H; simpl.
  - reflexivity.
  - rewrite (H x (or_introl eq_refl)), IH; [reflexivity |].
    intros a Ha. apply H. now right.
Qed.

Lemma filter_all {A} (p : A -> bool) (l : list A) :
  (forall a, In a l -> p a = true) -> filter p l = l.
Proof.
  induction l as [| x l IH]; intro H; simpl.
  - reflexivity.
  - rewrite (H x (or_introl eq_refl)), IH; [reflexivity |].
    intros a Ha. apply H. now right.
Qed.

(** C9.  When no stored activity has the identifier of [activity],
    [updateActivity] returns the service unchanged (activity list and
    persisted item alike); when no stored activity has the identifier
    [id'], [deleteActivity] keeps the whole activity list and persists
    that same list.  Both operations are total: no path of either one
    throws. *)
Theorem update_delete_unknown_id
    (activity : Activity) (id' : string) (this : t) :
  (forall a, In a (activitiesSubject this) -> id a <> id activity) ->
  (forall a, In a (activitiesSubject this) -> id a <> id') ->
  updateActivity activity this = this /\
  activitiesSubject (deleteActivity id' this) = activitiesSubject this /\
  localStorage (deleteActivity id' this) = Some (activitiesSubject this).
Proof.
  intros Hupd Hdel. unfold updateActivity, deleteActivity, publish. simpl.
  rewrite findIndex_none.
  - rewrite filter_all; [auto |].
    intros a Ha. apply negb_true_iff, String.eqb_neq. now apply Hdel.
  - intros a Ha. apply String.eqb_neq. now apply Hupd.
Qed.

Lemma update_delete_unknown_id_witness :
  let stored := mkActivity "a" "Lunch" 43200000 46800000 60 "#54a0ff" in
  let other := mkActivity "b" "Walk" 50400000 54000000 60 "#1dd1a1" in
  let this := mk [stored] (Some [stored]) in
  updateActivity other this = this /\
  activitiesSubject (deleteActivity "b" this) = activitiesSubject this /\
  localStorage (deleteActivity "b" this) = Some (activitiesSubject this).
Proof.
  intros stored other this.
  apply (update_delete_unknown_id other "b" this);
    intros a [<- | []]; simpl; discriminate.
Defined.

End ServiceFacts.

(** ** The add-now action *)

Module AddNowFacts.
Import Tactics JSFacts DateFacts.

Lemma roundedMinutes_range (minutes : Z) :
  0 <= minutes < 60 -> 0 <= JS.Math_round (inject_Z minutes / 15) <= 4.
Proof.
  intro H. apply inject_bounds in H. destruct H as [H0 H1]. qconst.
  unfold JS.Math_round.
  pose proof (Qfloor_resp_le 0 (inject_Z minutes / 15 + (1 # 2))) as L.
  pose proof (Qfloor_resp_le (inject_Z minutes / 15 + (1 # 2))
                (4 + (1 # 2))) as U.
  change (Qfloor 0) with 0 in L.
  change (Qfloor (4 + (1 # 2))) with 4 in U.
  split; [apply L | apply U]; qconst; lra.
Qed.

(** C7.  Whatever the clock reads when the action runs, the activity
    that [addNow] builds has [durationMinutes] 60, ends exactly 60
    minutes after it starts, and starts on a quarter hour: the minutes
    of its start are a multiple of 15 and its seconds and milliseconds
    are zero.  Both component variants append exactly this activity to
    the store.  The rounding of the minutes gives the same integer when
    it is evaluated in binary64 arithmetic. *)
Theorem addNow_activity tz (now : Date.t) (uuid : string) (random : Q)
    (c1 : Component.t) (c2 : ComponentV2.t) :
  let a1 := Layout.newActivity tz Component.predefinedColors now uuid random in
  let a2 := Layout.newActivity tz ComponentV2.colors now uuid random in
  Component.activities (Component.addNow tz now uuid random c1)
    = Component.activities c1 ++ [a1] /\
  ComponentV2.activities (ComponentV2.addNow tz now uuid random c2)
    = ComponentV2.activities c2 ++ [a2] /\
  forall a, a = a1 \/ a = a2 ->
    durationMinutes a = 60%Q /\
    Date.getTime (endTime a)
      = Date.getTime (startTime a) + 60 * Date.msPerMinute /\
    Date.getMinutes tz (startTime a) mod 15 = 0 /\
    Date.getSeconds tz (startTime a) = 0 /\
    Date.getMilliseconds tz (startTime a) = 0 /\
    Binary64.roundedMinutes (Date.getMinutes tz now)
    = JS.Math_round (inject_Z (Date.getMinutes tz now) / 15) * 15.
Proof.
  intros a1 a2. split; [reflexivity |]. split; [reflexivity |].
  assert (K : forall colors,
    let a := Layout.newActivity tz colors now uuid random in
    durationMinutes a = 60%Q /\
    Date.getTime (endTime a)
      = Date.getTime (startTime a) + 60 * Date.msPerMinute /\
    Date.getMinutes tz (startTime a) mod 15 = 0 /\
    Date.getSeconds tz (startTime a) = 0 /\
    Date.getMilliseconds tz (startTime a) = 0 /\
    Binary64.roundedMinutes (Date.getMinutes tz now)
    = JS.Math_round (inject_Z (Date.getMinutes tz now) / 15) * 15).
  { intros colors a. subst a.
    split; [reflexivity |].
    assert (B : Binary64.roundedMinutes (Date.getMinutes tz now)
                = JS.Math_round (inject_Z (Date.getMinutes tz now) / 15) * 15)
      by (apply Binary64Facts.binary64_roundedMinutes, getMinutes_range).
    revert B. generalize (Binary64.roundedMinutes (Date.getMinutes tz now)).
    intros b B.
    unfold Layout.newActivity. simpl.
    pose proof (roundedMinutes_range _ (getMinutes_range tz now)) as Hq.
    set (q := JS.Math_round (inject_Z (Date.getMinutes tz now) / 15)) in *.
    split.
    { unfold Date.ofNumber. apply trunc_inject.
      unfold Date.getTime, Date.msPerMinute.
      rewrite inject_Z_plus. reflexivity. }
    clearbody q. repeat split; try exact B; date_lia. }
  intros a [-> | ->]; apply K.
Qed.

End AddNowFacts.

(** ** Overlap levels *)

Module LayoutFacts.
Import Layout Notions.

(** *** The overlap test *)

Lemma areOverlapping_iff (a b : Activity) :
  areOverlapping a b = true <->
  Date.getTime (startTime a) < Date.getTime (endTime b) /\
  Date.getTime (endTime a) > Date.getTime (startTime b).
Proof.
  unfold areOverlapping.
  rewrite andb_true_iff, Z.ltb_lt, Z.gtb_gt. reflexivity.
Qed.

Lemma areOverlapping_sym (a b : Activity) :
  areOverlapping a b = areOverlapping b a.
Proof.
  unfold areOverlapping. rewrite !Z.gtb_ltb. apply andb_comm.
Qed.

Lemma levelTaken_iff result act k :
  levelTaken result act k = true <->
  exists p, In p result /\ level p = k /\
            areOverlapping act (activity p) = true.
Proof.
  unfold levelTaken. rewrite existsb_exists.
  split; intros (p & Hin & H); exists p; split; try assumption.
  - apply andb_true_iff in H. now rewrite Nat.eqb_eq in H.
  - apply andb_true_iff. now rewrite Nat.eqb_eq.
Qed.

Lemma levelTaken_false result act k :
  levelTaken result act k = false <->
  forall p, In p result -> level p = k ->
            areOverlapping act (activity p) = false.
Proof.
  split.
  - intros H p Hin Hk.
    destruct (areOverlapping act (activity p)) eqn:E; [| reflexivity].
    assert (T : levelTaken result act k = true)
      by (apply levelTaken_iff; eauto).
    congruence.
  - intro H. destruct (levelTaken result act k) eqn:E; [| reflexivity].
    apply levelTaken_iff in E. destruct E as (p & Hin & Hk & Ho).
    rewrite (H p Hin Hk) in Ho. discriminate.
Qed.

(** *** Sorting *)

Lemma insert_perm a l : Permutation (insert a l) (a :: l).
Proof.
  induction l as [| b l IH]; simpl.
  - reflexivity.
  - destruct (_ <=? 0).
    + reflexivity.
    + rewrite IH. apply perm_swap.
Qed.

Lemma sort_perm l : Permutation (sort l) l.
Proof.
  induction l as [| a l IH]; simpl.
  - constructor.
  - rewrite insert_perm. now constructor.
Qed.

Lemma insert_sorted a l :
  StronglySorted startsBefore l -> StronglySorted startsBefore (insert a l).
Proof.
  induction 1 as [| b l Hl IH Hb]; simpl.
  - repeat constructor.
  - destruct (_ <=? 0) eqn:E.
    + apply Z.leb_le in E.
      constructor; [now constructor |].
      constructor; [unfold startsBefore; lia |].
      rewrite Forall_forall in *. intros c Hc.
      specialize (Hb c Hc). unfold startsBefore in *. lia.
    + apply Z.leb_gt in E.
      constructor; [exact IH |].
      rewrite Forall_forall in *. intros c Hc.
      apply (Permutation_in _ (insert_perm a l)) in Hc.
      destruct Hc as [<- | Hc]; [unfold startsBefore; lia | now apply Hb].
Qed.

Lemma sort_sorted l : StronglySorted startsBefore (sort l).
Proof.
  induction l as [| a l IH]; simpl.
  - constructor.
  - now apply insert_sorted.
Qed.

(** The sort is stable: activities that start at the same instant keep
    their order. *)
Lemma insert_stable (t0 : Z) a l :
  filter (fun b => Date.getTime (startTime b) =? t0) (insert a l)
  = filter (fun b => Date.getTime (startTime b) =? t0) (a :: l).
Proof.
  induction l as [| b l IH]; [reflexivity |].
  simpl insert. destruct (_ <=? 0) eqn:E; [reflexivity |].
  apply Z.leb_gt in E.
  change (filter ?p (b :: ?r))
    with (if p b then b :: filter p r else filter p r).
  rewrite IH. simpl.
  destruct (Date.getTime (startTime a) =? t0) eqn:Ea;
    destruct (Date.getTime (startTime b) =? t0) eqn:Eb; try reflexivity.
  apply Z.eqb_eq in Ea, Eb. lia.
Qed.

Lemma sort_stable (t0 : Z) l :
  filter (fun b => Date.getTime (startTime b) =? t0) (sort l)
  = filter (fun b => Date.getTime (startTime b) =? t0) l.
Proof.
  induction l as [| a l IH]; [reflexivity |].
  simpl sort. rewrite insert_stable. simpl. now rewrite IH.
Qed.

(** *** The level search terminates within its fuel *)

Lemma countFrom_le k result : (countFrom k result <= List.length result)%nat.
Proof. apply filter_length_le. Qed.

Lemma countFrom_succ k result :
  (countFrom (S k) result <= countFrom k result)%nat.
Proof.
  unfold countFrom.
  induction result as [| r result IH]; cbn [filter List.length]; [lia |].
  destruct (Nat.leb_spec (S k) (level r)); destruct (Nat.leb_spec k (level r));
    cbn [List.length]; lia.
Qed.

Lemma countFrom_drop k result :
  (exists p, In p result /\ level p = k) ->
  (countFrom (S k) result < countFrom k result)%nat.
Proof.
  unfold countFrom.
  induction result as [| r result IH]; cbn [filter List.length].
  - intros (p & [] & _).
  - intros (p & [-> | Hin] & Hk).
    + pose proof (countFrom_succ k result) as Hle. unfold countFrom in Hle.
      subst k.
      destruct (Nat.leb_spec (S (level p)) (level p));
        destruct (Nat.leb_spec (level p) (level p));
        cbn [List.length]; lia.
    + assert (IH' := IH (ex_intro _ p (conj Hin Hk))).
      destruct (Nat.leb_spec (S k) (level r));
        destruct (Nat.leb_spec k (level r));
        cbn [List.length]; lia.
Qed.

(** With more fuel than there are placed activities at or above the
    starting level, the search exits, at the lowest free level. *)
Lemma findLevel_exits fuel result act k0 :
  (countFrom k0 result < fuel)%nat ->
  exists k, findLevel fuel result act k0 = Some k /\
    (k0 <= k)%nat /\
    levelTaken result act k = false /\
    forall j, (k0 <= j < k)%nat -> levelTaken result act j = true.
Proof.
  revert k0. induction fuel as [| fuel IH]; intros k0 Hfuel; [lia |].
  simpl. destruct (levelTaken result act k0) eqn:E.
  - assert (Hdrop : (countFrom (S k0) result < countFrom k0 result)%nat).
    { apply countFrom_drop. apply levelTaken_iff in E.
      destruct E as (p & Hin & Hk & _). eauto. }
    destruct (IH (S k0)) as (k & Hk & Hle & Hfree & Hbelow); [lia |].
    exists k. repeat split; try assumption; [lia |].
    intros j Hj. destruct (Nat.eq_dec j k0) as [-> | Hne]; [exact E |].
    apply Hbelow. lia.
  - exists k0. repeat split; try assumption; [lia |].
    intros j Hj. lia.
Qed.

Lemma findLevel_lowest result act :
  exists k, findLevel (S (List.length result)) result act 0 = Some k /\
    levelTaken result act k = false /\
    forall j, (j < k)%nat -> levelTaken result act j = true.
Proof.
  destruct (findLevel_exits (S (List.length result)) result act 0)
    as (k & Hk & _ & Hfree & Hbelow).
  - pose proof (countFrom_le 0 result). lia.
  - exists k. repeat split; try assumption.
    intros j Hj. apply Hbelow. lia.
Qed.

(** *** The placement loop *)

Lemma placeAll_greedy sorted : forall result,
  exists added, placeAll sorted result = Some (result ++ added) /\
    map activity added = sorted /\
    forall pre r post, added = pre ++ r :: post ->
      lowestFree (result ++ pre) r.
Proof.
  induction sorted as [| act rest IH]; intro result; cbn [placeAll].
  - exists []. rewrite app_nil_r.
    split; [reflexivity |]. split; [reflexivity |].
    intros [| ? ?] ? ? H; discriminate.
  - destruct (findLevel_lowest result act) as (k & Hk & Hfree & Hbelow).
    rewrite Hk.
    destruct (IH (result ++ [mkLeveled act k])) as (added & Hp & Hm & Hg).
    exists (mkLeveled act k :: added).
    rewrite Hp, <- app_assoc. simpl.
    split; [reflexivity |]. split; [now rewrite Hm |].
    intros pre r post H.
    destruct pre as [| q pre]; simpl in H; injection H as <- ->.
    + rewrite app_nil_r. split; simpl.
      * now apply (proj1 (levelTaken_false result act k)).
      * intros j Hj. now apply levelTaken_iff, Hbelow.
    + specialize (Hg pre r post eq_refl).
      now rewrite <- app_assoc in Hg.
Qed.

(** Two placed activities that overlap never share a level. *)
Lemma greedy_separates result :
  (forall pre r post, result = pre ++ r :: post -> lowestFree pre r) ->
  forall pre r mid r' post, result = pre ++ r :: mid ++ r' :: post ->
    areOverlapping (activity r) (activity r') = true -> level r <> level r'.
Proof.
  intros Hg pre r mid r' post E Ho Hl.
  destruct (Hg (pre ++ r :: mid) r' post) as [Hfree _].
  - now rewrite E, <- app_assoc.
  - rewrite areOverlapping_sym, (Hfree r) in Ho; [discriminate | | auto].
    apply in_or_app. right. now left.
Qed.

Local Arguments areOverlapping : simpl never.

(** The layout of two activities given in start order. *)
Lemma leveledActivities_two a b :
  startsBefore a b ->
  leveledActivities [a; b]
  = Some [ mkLeveled a 0;
           mkLeveled b (if areOverlapping b a then 1 else 0) ].
Proof.
  unfold startsBefore, leveledActivities. intro H.
  cbn [sort insert].
  destruct (Z.leb_spec (Date.getTime (startTime a)
                        - Date.getTime (startTime b)) 0); [| lia].
  cbn. destruct (areOverlapping b a); reflexivity.
Qed.

(** The layout of three activities that overlap pairwise. *)
Lemma leveledActivities_three a b c :
  areOverlapping a b = true -> areOverlapping b c = true ->
  areOverlapping a c = true ->
  exists result, leveledActivities [a; b; c] = Some result /\
    Permutation (map activity result) [a; b; c] /\
    map level result = [0; 1; 2]%nat.
Proof.
  intros Hab Hbc Hac.
  assert (Hba := Hab). assert (Hcb := Hbc). assert (Hca := Hac).
  rewrite areOverlapping_sym in Hba, Hcb, Hca.
  pose proof (sort_perm [a; b; c]) as Hperm.
  unfold leveledActivities. revert Hperm. cbn [sort insert].
  repeat match goal with
         | |- context [if ?c <=? 0 then _ else _] =>
             destruct (c <=? 0); cbn [insert]
         end;
    intro Hperm; cbn; rewrite ?Hab, ?Hba, ?Hbc, ?Hcb, ?Hac, ?Hca; cbn;
    eexists; (split; [reflexivity |]); split;
    solve [exact Hperm | reflexivity].
Qed.

(** C2.  [areOverlapping] is the strict test on full timestamps.
    [leveledActivities] always produces a result; that result lists the
    input activities, each once, in ascending order of start timestamp,
    and every activity sits at the lowest level at which it overlaps
    none of the activities placed before it; hence overlapping
    activities never share a level.  In particular 09:00-10:00 and
    09:30-10:30 get levels 0 and 1, three pairwise overlapping
    activities get the three levels 0, 1 and 2, and 09:00-10:00 and
    10:00-11:00 both get level 0. *)
Theorem leveledActivities_sorted_greedy :
  (forall a b, areOverlapping a b = true <->
     Date.getTime (startTime a) < Date.getTime (endTime b) /\
     Date.getTime (endTime a) > Date.getTime (startTime b)) /\
  (forall activities, exists result,
     leveledActivities activities = Some result /\
     Permutation (map activity result) activities /\
     StronglySorted startsBefore (map activity result) /\
     (forall pre r post, result = pre ++ r :: post -> lowestFree pre r) /\
     (forall pre r mid r' post, result = pre ++ r :: mid ++ r' :: post ->
        areOverlapping (activity r) (activity r') = true ->
        level r <> level r')) /\
  (forall tz day,
     let a := slot "A" (at_ tz day 9 0) (at_ tz day 10 0) in
     let b := slot "B" (at_ tz day 9 30) (at_ tz day 10 30) in
     leveledActivities [a; b] = Some [mkLeveled a 0; mkLeveled b 1] /\
     leveledActivities [b; a] = Some [mkLeveled a 0; mkLeveled b 1]) /\
  (forall a b c,
     areOverlapping a b = true -> areOverlapping b c = true ->
     areOverlapping a c = true ->
     exists result, leveledActivities [a; b; c] = Some result /\
       Permutation (map activity result) [a; b; c] /\
       map level result = [0; 1; 2]%nat) /\
  (forall tz day,
     let a := slot "A" (at_ tz day 9 0) (at_ tz day 10 0) in
     let b := slot "B" (at_ tz day 10 0) (at_ tz day 11 0) in
     leveledActivities [a; b] = Some [mkLeveled a 0; mkLeveled b 0] /\
     leveledActivities [b; a] = Some [mkLeveled a 0; mkLeveled b 0]).
Proof.
  split; [exact areOverlapping_iff |].
  split.
  { intro activities. unfold leveledActivities.
    destruct (placeAll_greedy (sort activities) [])
      as (result & Hp & Hm & Hg).
    simpl in Hp. exists result.
    split; [exact Hp |].
    split; [rewrite Hm; apply sort_perm |].
    split; [rewrite Hm; apply sort_sorted |].
    assert (G : forall pre r post,
               result = pre ++ r :: post -> lowestFree pre r)
      by (intros pre r post E; exact (Hg pre r post E)).
    split; [exact G | exact (greedy_separates result G)]. }
  split.
  { intros tz day a b.
    assert (Hab : startsBefore a b)
      by (unfold startsBefore; subst a b; simpl; unfold Notions.at_;
          Tactics.date_lia).
    assert (Ho : areOverlapping b a = true).
    { apply areOverlapping_iff. subst a b. simpl.
      unfold Notions.at_. Tactics.date_lia. }
    pose proof (leveledActivities_two a b Hab) as E. rewrite Ho in E.
    split; [exact E |].
    rewrite <- E. unfold leveledActivities. f_equal.
    cbn [sort insert].
    destruct (Z.leb_spec (Date.getTime (startTime b)
                          - Date.getTime (startTime a)) 0) as [L | L];
      destruct (Z.leb_spec (Date.getTime (startTime a)
                            - Date.getTime (startTime b)) 0) as [L' | L'];
      try reflexivity; exfalso; subst a b; simpl in *;
      unfold Notions.at_ in *; Tactics.date_lia. }
  split; [exact leveledActivities_three |].
  intros tz day a b.
  assert (Hab : startsBefore a b)
    by (unfold startsBefore; subst a b; simpl; unfold Notions.at_;
          Tactics.date_lia).
  assert (Ho : areOverlapping b a = false).
  { destruct (areOverlapping b a) eqn:E; [| reflexivity].
    apply areOverlapping_iff in E. subst a b. simpl in E.
    unfold Notions.at_ in E. Tactics.date_lia. }
  pose proof (leveledActivities_two a b Hab) as E. rewrite Ho in E.
  split; [exact E |].
  rewrite <- E. unfold leveledActivities. f_equal.
  cbn [sort insert].
  destruct (Z.leb_spec (Date.getTime (startTime b)
                        - Date.getTime (startTime a)) 0) as [L | L];
    destruct (Z.leb_spec (Date.getTime (startTime a)
                          - Date.getTime (startTime b)) 0) as [L' | L'];
    try reflexivity; exfalso; subst a b; simpl in *;
    unfold Notions.at_ in *; Tactics.date_lia.
Qed.

End LayoutFacts.

(** ** The drag handlers *)

Module ControllerFacts.
Import Tactics TimeUtils Notions JSFacts DateFacts TimeUtilsFacts SnapFacts.

(** *** Lists *)


Lemma find_holds {A} (p : A -> bool) (l : list A) (a : A) :
  find p l = Some a -> p a = true.
Proof. intro H. now apply find_some in H. Qed.

(** *** Snapped angles and the hours they stand for *)





(** *** The handler [onMove], case by case *)

Section OnMove.
Import Component.

Variable tz : Z.

Lemma onMove_request_cases (angle : Q) (this : t) :
  snd (onMove_request tz angle this)
  = if negb (isDragging this) || noId (draggedActivityId this)
    then None
    else if negb (pastThreshold angle this) then None
    else match find (idIs (draggedActivityId this)) (activities this) with
         | Some act =>
             let u := updatedActivity tz this act
                        (snapAngleTo15Min angle) in
             if changed u act then Some u else None
         | None => None
         end.
Proof.
  unfold onMove_request, pastThreshold, changed.
  destruct (isDragging this); [| reflexivity].
  destruct (noId (draggedActivityId this)); [reflexivity |].
  cbn [negb orb].
  destruct (hasMoved this) eqn:Eh; cbn [negb andb orb].
  - rewrite Eh. cbn [negb andb].
    destruct (find _ _); [| reflexivity].
    cbv zeta. destruct (_ || _); reflexivity.
  - destruct (JS.gtb _ 2); cbn [negb andb orb].
    + change (hasMoved (setHasMoved true this)) with true.
      cbn [negb andb].
      change (activities (setHasMoved true this)) with (activities this).
      change (draggedActivityId (setHasMoved true this))
        with (draggedActivityId this).
      destruct (find _ _); [| reflexivity].
      cbv zeta. destruct (_ || _); reflexivity.
    + rewrite Eh. cbn [negb andb].
      destruct (isMove (dragMode this)); [reflexivity |].
      cbn [negb].
      destruct (find _ _); [| reflexivity].
      cbv zeta. destruct (_ || _); reflexivity.
Qed.

Lemma onMove_request_service (angle : Q) (this : t) :
  chronodexService (fst (onMove_request tz angle this))
  = chronodexService this.
Proof.
  unfold onMove_request.
  destruct (negb (isDragging this) || noId (draggedActivityId this));
    [reflexivity |].
  destruct (negb (hasMoved this) && JS.gtb _ 2); cbv zeta;
    (destruct (negb _ && isMove _); [reflexivity |]);
    (destruct (find _ _); [| reflexivity]);
    destruct (_ || _); reflexivity.
Qed.

Lemma onMove_service (angle : Q) (this : t) :
  chronodexService (onMove tz angle this)
  = match snd (onMove_request tz angle this) with
    | Some u => Service.updateActivity u (chronodexService this)
    | None => chronodexService this
    end.
Proof.
  unfold onMove. pose proof (onMove_request_service angle this) as Hs.
  destruct (onMove_request tz angle this) as [this' [u |]]; simpl in *;
    now rewrite Hs.
Qed.

Lemma changed_iff (u act : Activity) :
  changed u act = true <->
  Date.getTime (startTime u) <> Date.getTime (startTime act) \/
  Date.getTime (endTime u) <> Date.getTime (endTime act).
Proof.
  unfold changed.
  rewrite orb_true_iff, !negb_true_iff, !Z.eqb_neq. reflexivity.
Qed.

Lemma changed_false (u act : Activity) :
  changed u act = false <->
  Date.getTime (startTime u) = Date.getTime (startTime act) /\
  Date.getTime (endTime u) = Date.getTime (endTime act).
Proof.
  unfold changed.
  rewrite orb_false_iff, !negb_false_iff, !Z.eqb_eq. reflexivity.
Qed.

(** When, and with what, [onMove] calls [updateActivity]. *)
Lemma onMove_request_some (angle : Q) (this : t) (u : Activity) :
  snd (onMove_request tz angle this) = Some u <->
  isDragging this = true /\ noId (draggedActivityId this) = false /\
  pastThreshold angle this = true /\
  exists act,
    find (idIs (draggedActivityId this)) (activities this) = Some act /\
    u = updatedActivity tz this act (snapAngleTo15Min angle) /\
    changed u act = true.
Proof.
  rewrite onMove_request_cases.
  destruct (isDragging this); cbn [negb orb].
  2: { split; [discriminate | intros (H & _); discriminate]. }
  destruct (noId (draggedActivityId this)).
  1: { split; [discriminate | intros (_ & H & _); discriminate]. }
  destruct (pastThreshold angle this); cbn [negb].
  2: { split; [discriminate | intros (_ & _ & H & _); discriminate]. }
  destruct (find _ _) as [act |].
  2: { split; [discriminate |].
       intros (_ & _ & _ & act & H & _). discriminate. }
  cbv zeta.
  destruct (changed _ act) eqn:Ec.
  - split.
    + intros [= <-]. repeat split. exists act. now repeat split.
    + intros (_ & _ & _ & act' & [= <-] & -> & _). reflexivity.
  - split; [discriminate |].
    intros (_ & _ & _ & act' & [= <-] & -> & Hc). congruence.
Qed.

End OnMove.

(** *** The threshold of [move] drags *)

Section MoveThreshold.
Import Component.

Variable tz : Z.




Lemma pressed_fields (this : t) (aid : string) (a0 : Q) (m : DragMode) :
  let pressed := handleMouseDown a0 aid m this in
  isDragging pressed = true /\
  draggedActivityId pressed = Some aid /\
  dragMode pressed = m /\
  dragStartAngle pressed = a0 /\
  chronodexService pressed = chronodexService this /\
  (forall act,
     find (fun a => (id a =? aid)%string) (activities this) = Some act ->
     hasMoved pressed = false).
Proof.
  unfold handleMouseDown.
  destruct (find _ (activities this)); cbn; repeat split; discriminate.
Qed.


Lemma onMove_latches (angle : Q) (this : t) :
  isDragging this = true -> noId (draggedActivityId this) = false ->
  JS.gtb (JS.Math_abs (angle - dragStartAngle this)) 2 = true ->
  hasMoved (onMove tz angle this) = true.
Proof.
  intros Hd Hn Hg. unfold onMove, onMove_request.
  rewrite Hd, Hn, Hg. cbn [negb orb andb].
  destruct (hasMoved this) eqn:Eh; cbn [negb andb].
  - rewrite Eh. cbn [negb andb].
    destruct (find _ _); [| exact Eh].
    cbv zeta. destruct (_ || _); exact Eh.
  - change (hasMoved (setHasMoved true this)) with true. cbn [negb andb].
    destruct (find _ _); [| reflexivity].
    cbv zeta. destruct (_ || _); reflexivity.
Qed.


End MoveThreshold.



End ControllerFacts.

(** ** The duration of a dragged or saved activity *)

Module DurationFacts.
Import Tactics TimeUtils Notions JSFacts DateFacts TimeUtilsFacts SnapFacts
  ControllerFacts.





Lemma onMouseMove_request_some tz (angle : Q) (this : ComponentV2.t)
    (u : Activity) :
  ComponentV2.onMouseMove_request tz angle this = Some u <->
  ComponentV2.isDragging this = true /\
  noId (ComponentV2.draggedActivityId this) = false /\
  exists act,
    find (idIs (ComponentV2.draggedActivityId this))
         (ComponentV2.activities this) = Some act /\
    u = ComponentV2.updatedActivity tz this act (snapAngleTo15Min angle).
Proof.
  unfold ComponentV2.onMouseMove_request.
  destruct (ComponentV2.isDragging this); cbn [negb orb].
  2: { split; [discriminate | intros (H & _); discriminate]. }
  destruct (noId (ComponentV2.draggedActivityId this)).
  1: { split; [discriminate | intros (_ & H & _); discriminate]. }
  destruct (find _ _) as [act |].
  - split.
    + intros [= <-]. repeat split. now exists act.
    + intros (_ & _ & act' & [= <-] & ->). reflexivity.
  - split; [discriminate |]. intros (_ & _ & act & H & _). discriminate.
Qed.











End DurationFacts.

(** ** When a pointer-move reaches the store *)

Module PushFacts.
Import TimeUtils Notions ControllerFacts DurationFacts.

(** C8, as the code has it.  In the component variant with [move]
    drags, [onMove] calls [updateActivity] exactly when the drag is
    active, past the threshold of [move] drags, the dragged activity is
    found and the recomputed start or end timestamp differs from the
    activity's current one; the store changes by that call and by
    nothing else, so a pointer-move whose recomputed timestamps equal
    the current ones leaves store and activity list unchanged.  In the
    simpler variant, [onMouseMove] calls [updateActivity] on every
    pointer-move of an active drag that finds the dragged activity,
    whether or not a timestamp changed. *)
Theorem update_pushed_on_change tz :
  (forall angle this u,
     snd (Component.onMove_request tz angle this) = Some u <->
     Component.isDragging this = true /\
     noId (Component.draggedActivityId this) = false /\
     pastThreshold angle this = true /\
     exists act,
       find (idIs (Component.draggedActivityId this))
            (Component.activities this) = Some act /\
       u = Component.updatedActivity tz this act (snapAngleTo15Min angle) /\
       (Date.getTime (startTime u) <> Date.getTime (startTime act) \/
        Date.getTime (endTime u) <> Date.getTime (endTime act))) /\
  (forall angle this,
     Component.chronodexService (Component.onMove tz angle this)
     = match snd (Component.onMove_request tz angle this) with
       | Some u => Service.updateActivity u (Component.chronodexService this)
       | None => Component.chronodexService this
       end) /\
  (forall angle this act,
     find (idIs (Component.draggedActivityId this))
          (Component.activities this) = Some act ->
     let u := Component.updatedActivity tz this act
                (snapAngleTo15Min angle) in
     Date.getTime (startTime u) = Date.getTime (startTime act) ->
     Date.getTime (endTime u) = Date.getTime (endTime act) ->
     snd (Component.onMove_request tz angle this) = None /\
     Component.chronodexService (Component.onMove tz angle this)
     = Component.chronodexService this) /\
  (forall angle this u,
     ComponentV2.onMouseMove_request tz angle this = Some u <->
     ComponentV2.isDragging this = true /\
     noId (ComponentV2.draggedActivityId this) = false /\
     exists act,
       find (idIs (ComponentV2.draggedActivityId this))
            (ComponentV2.activities this) = Some act /\
       u = ComponentV2.updatedActivity tz this act
             (snapAngleTo15Min angle)) /\
  (forall angle this,
     ComponentV2.chronodexService (ComponentV2.onMouseMove tz angle this)
     = match ComponentV2.onMouseMove_request tz angle this with
       | Some u =>
           Service.updateActivity u (ComponentV2.chronodexService this)
       | None => ComponentV2.chronodexService this
       end).
Proof.
  split.
  { intros angle this u. rewrite onMove_request_some.
    split; intros (H1 & H2 & H3 & act & H4 & H5 & H6);
      (split; [exact H1 |]); (split; [exact H2 |]); (split; [exact H3 |]);
      exists act; (split; [exact H4 |]); (split; [exact H5 |]);
      now apply changed_iff. }
  split; [exact (onMove_service tz) |].
  split.
  { intros angle this act Hf u Hs He.
    assert (C : changed u act = false) by now apply changed_false.
    assert (N : snd (Component.onMove_request tz angle this) = None).
    { rewrite onMove_request_cases, Hf. cbv zeta. fold u. rewrite C.
      destruct (_ || _); [reflexivity |].
      destruct (negb _); reflexivity. }
    split; [exact N |]. now rewrite onMove_service, N. }
  split; [exact (onMouseMove_request_some tz) |].
  intros angle this. unfold ComponentV2.onMouseMove.
  destruct (ComponentV2.onMouseMove_request tz angle this); reflexivity.
Qed.

(** In the simpler variant a pointer-move that recomputes the current
    end time (150 degrees is 10:00) still reaches the store. *)
Lemma simple_variant_pushes_without_change :
  exists u,
    ComponentV2.onMouseMove_request 0 150 Examples.pressedV2 = Some u /\
    find (idIs (ComponentV2.draggedActivityId Examples.pressedV2))
         (ComponentV2.activities Examples.pressedV2)
      = Some Examples.lunch /\
    Date.getTime (startTime u) = Date.getTime (startTime Examples.lunch) /\
    Date.getTime (endTime u) = Date.getTime (endTime Examples.lunch).
Proof.
  eexists. split; [reflexivity |]. vm_compute. repeat split.
Qed.

End PushFacts.

(** ** The arc path *)

Module ArcFacts.
Import Tactics TimeUtils JSFacts.

Local Open Scope R_scope.

Lemma Q2R_zero : Q2R 0 = 0.
Proof. unfold Q2R. simpl. Lra.lra. Qed.

(** Two angles less than a full turn apart that give the same point of
    the unit circle are equal. *)
Lemma same_direction (a b : R) :
  -2 * PI < a - b < 2 * PI -> cos a = cos b -> sin a = sin b -> a = b.
Proof.
  intros Hd Hc Hs.
  assert (C : cos (a - b) = 1).
  { rewrite cos_minus, Hc, Hs.
    pose proof (sin2_cos2 b) as P. unfold Rsqr in P. Lra.lra. }
  assert (S : sin (a - b) = 0).
  { pose proof (sin2_cos2 (a - b)) as P. unfold Rsqr in P.
    rewrite C in P. Lra.nra. }
  destruct (sin_eq_0_0 _ S) as (k & Hk).
  pose proof PI_RGT_0 as Hpi.
  assert (Kl : IZR (-2) < IZR k) by (apply Rmult_lt_reg_r with PI; Lra.lra).
  assert (Ku : IZR k < IZR 2) by (apply Rmult_lt_reg_r with PI; Lra.lra).
  apply lt_IZR in Kl, Ku.
  assert (K : (k = -1 \/ k = 0 \/ k = 1)%Z) by lia.
  destruct K as [-> | [-> | ->]].
  - exfalso. replace (a - b) with (- PI) in C by Lra.lra.
    rewrite cos_neg, cos_PI in C. Lra.lra.
  - Lra.lra.
  - exfalso. replace (a - b) with PI in C by Lra.lra.
    rewrite cos_PI in C. Lra.lra.
Qed.

Lemma Qabs_lt_iff (x y : Q) : (Qabs x < y)%Q <-> (- y < x)%Q /\ (x < y)%Q.
Proof.
  split.
  - intro H. pose proof (Qle_Qabs x) as U. pose proof (Qle_Qabs (- x)) as L.
    rewrite Qabs_opp in L. split; lra.
  - intros [L U]. apply Qabs_case; intro; lra.
Qed.

(** On a circle of non-zero radius, two angles less than a full turn
    apart give the same point only when they are equal. *)
Lemma polarToCartesian_inj (x y radius a b : Q) :
  ~ (radius == 0)%Q -> (Qabs (a - b) < 360)%Q ->
  polarToCartesian x y radius a = polarToCartesian x y radius b ->
  (a == b)%Q.
Proof.
  intros Hr Hab Hp. unfold polarToCartesian in Hp.
  injection Hp as Hx Hy.
  assert (Hr' : Q2R radius <> 0).
  { intro E. apply Hr. apply eqR_Qeq. now rewrite E, Q2R_zero. }
  apply Rplus_eq_reg_l, Rmult_eq_reg_l in Hx, Hy; try assumption.
  apply Qabs_lt_iff in Hab. destruct Hab as [L U].
  apply Qlt_Rlt in L, U.
  rewrite Q2R_opp in L. rewrite !Q2R_minus in L, U.
  assert (E360 : Q2R 360 = 360) by (unfold Q2R; simpl; Lra.lra).
  rewrite E360 in L, U.
  pose proof PI_RGT_0 as Hpi.
  assert (Ul : (Q2R a - Q2R b) * PI < 360 * PI)
    by (apply Rmult_lt_compat_r; assumption).
  assert (Ll : (- 360) * PI < (Q2R a - Q2R b) * PI)
    by (apply Rmult_lt_compat_r; assumption).
  apply same_direction in Hx; [| | exact Hy].
  - assert (E : Q2R (a - 90) * PI = Q2R (b - 90) * PI) by Lra.lra.
    apply Rmult_eq_reg_r in E; [| Lra.lra].
    apply eqR_Qeq. rewrite !Q2R_minus in E. Lra.lra.
  - rewrite !Q2R_minus. split; Lra.lra.
Qed.

Local Close Scope R_scope.

Lemma endAngle_clamped (s e : Q) :
  (360 <= Qabs (e - s))%Q -> describeArc_endAngle s e = (s + 359.99)%Q.
Proof.
  intro H. unfold describeArc_endAngle, JS.Math_abs.
  now rewrite (proj2 (geb_ge _ _) H).
Qed.

Lemma endAngle_kept (s e : Q) :
  (Qabs (e - s) < 360)%Q -> describeArc_endAngle s e = e.
Proof.
  intro H. unfold describeArc_endAngle, JS.Math_abs.
  now rewrite (proj2 (geb_lt _ _) H).
Qed.

Lemma sweep_below_full_turn (s e : Q) :
  (Qabs (describeArc_endAngle s e - s) < 360)%Q.
Proof.
  destruct (Qlt_le_dec (Qabs (e - s)) 360) as [H | H].
  - now rewrite endAngle_kept.
  - rewrite endAngle_clamped by assumption.
    apply Qabs_lt_iff. split; lra.
Qed.

Lemma arc_points (x y radius s e : Q) :
  let d := describeArc x y radius s e in
  Notions.arcStart d
    = Some (polarToCartesian x y radius (describeArc_endAngle s e)) /\
  Notions.arcEnd d = Some (polarToCartesian x y radius s).
Proof. split; reflexivity. Qed.

(** C6, as the code has it.  Whenever [|endAngle - startAngle| >= 360]
    the guard replaces [endAngle] by [startAngle + 359.99]; otherwise it
    keeps it.  The sweep of the emitted path is therefore always less
    than 360 degrees in absolute value, never exactly 360, and
    [describeArc(x, y, r, 0, 360)] is the path of
    [describeArc(x, y, r, 0, 359.99)].  On a circle of non-zero radius
    the start and end points of the emitted arc coincide only when the
    (guarded) end angle equals the start angle; so they are distinct
    whenever the guard fires. *)
Theorem describeArc_never_full_turn (x y radius startAngle endAngle : Q) :
  let endAngle' := describeArc_endAngle startAngle endAngle in
  let d := describeArc x y radius startAngle endAngle in
  ((360 <= Qabs (endAngle - startAngle))%Q ->
   endAngle' = (startAngle + 359.99)%Q /\
   (endAngle' - startAngle == 359.99)%Q) /\
  ((Qabs (endAngle - startAngle) < 360)%Q -> endAngle' = endAngle) /\
  (Qabs (endAngle' - startAngle) < 360)%Q /\
  ~ (endAngle' - startAngle == 360)%Q /\
  describeArc x y radius 0 360 = describeArc x y radius 0 359.99 /\
  Notions.arcStart d = Some (polarToCartesian x y radius endAngle') /\
  Notions.arcEnd d = Some (polarToCartesian x y radius startAngle) /\
  (~ (radius == 0)%Q ->
   (Notions.arcStart d = Notions.arcEnd d <-> (endAngle' == startAngle)%Q)) /\
  (~ (radius == 0)%Q -> (360 <= Qabs (endAngle - startAngle))%Q ->
   Notions.arcStart d <> Notions.arcEnd d).
Proof.
  intros endAngle' d.
  pose proof (sweep_below_full_turn startAngle endAngle) as Hsw.
  fold endAngle' in Hsw.
  destruct (arc_points x y radius startAngle endAngle) as [Ps Pe].
  fold d endAngle' in Ps, Pe.
  assert (Hiff : ~ (radius == 0)%Q ->
            (Notions.arcStart d = Notions.arcEnd d <->
             (endAngle' == startAngle)%Q)).
  { intro Hr. rewrite Ps, Pe. split.
    - intro E.
      apply (polarToCartesian_inj x y radius); [exact Hr | exact Hsw |].
      congruence.
    - intro E. f_equal. unfold polarToCartesian.
      assert (E' : (endAngle' - 90 == startAngle - 90)%Q)
        by now rewrite E.
      now rewrite (Qeq_eqR _ _ E'). }
  split.
  { intro H. subst endAngle'. rewrite endAngle_clamped by assumption.
    split; [reflexivity | ring]. }
  split; [intro H; subst endAngle'; now apply endAngle_kept |].
  split; [exact Hsw |].
  split.
  { intro E. rewrite E in Hsw. revert Hsw. apply Qle_not_lt.
    vm_compute. discriminate. }
  split.
  { unfold describeArc.
    change (describeArc_endAngle 0 360) with (0 + 359.99)%Q.
    change (describeArc_endAngle 0 359.99) with 359.99%Q.
    unfold polarToCartesian.
    assert (E : (0 + 359.99 - 90 == 359.99 - 90)%Q) by ring.
    now rewrite (Qeq_eqR _ _ E). }
  split; [exact Ps |]. split; [exact Pe |].
  split; [exact Hiff |].
  intros Hr Hc E. apply (Hiff Hr) in E.
  subst endAngle'. rewrite endAngle_clamped in E by assumption. lra.
Qed.

(** Two arcs whose start and end points coincide: the full turn on a
    circle of radius 0, and the arc from 135 to 135 degrees (an activity
    that ends when it starts) on the circle of radius 200. *)
Lemma arc_points_can_coincide :
  ((360 <= Qabs (360 - 0))%Q /\
   exists p,
     Notions.arcStart (describeArc 0 0 0 0 360) = Some p /\
     Notions.arcEnd (describeArc 0 0 0 0 360) = Some p) /\
  (exists p,
     Notions.arcStart (describeArc 300 300 200 135 135) = Some p /\
     Notions.arcEnd (describeArc 300 300 200 135 135) = Some p).
Proof.
  split.
  - split; [vm_compute; discriminate |].
    destruct (arc_points 0 0 0 0 360) as [Ps Pe].
    exists (polarToCartesian 0 0 0 0). split; [| exact Pe].
    rewrite Ps. f_equal. unfold polarToCartesian.
    rewrite Q2R_zero. f_equal; Lra.lra.
  - destruct (arc_points 300 300 200 135 135) as [Ps Pe].
    exists (polarToCartesian 300 300 200 135). split; [| exact Pe].
    exact Ps.
Qed.

End ArcFacts.

(** * Part III: further properties of the code *)

(** ** Time and angle, in both directions *)

Module KernelExtras.
Import Tactics TimeUtils Notions JSFacts DateFacts TimeUtilsFacts SnapFacts.

Lemma inject_Z_sub (x y : Z) : (inject_Z (x - y) == inject_Z x - inject_Z y)%Q.
Proof. unfold Z.sub. rewrite inject_Z_plus, inject_Z_opp. reflexivity. Qed.



(** [angleToTime] on an angle of the first turn. *)
Lemma angleToTime_first_turn tz (angle : Q) (base : Date.t) :
  (0 <= angle)%Q -> (angle < 360)%Q ->
  let h := Qfloor (angle / 15) in
  let m := JS.Math_round ((angle / 15 - inject_Z h) * 60) in
  angleToTime tz angle base = Date.setHours tz base h m 0 0 /\
  0 <= h < 24 /\ 0 <= m <= 60 /\
  (- (1 # 2) < inject_Z m - (angle / 15 - inject_Z h) * 60)%Q /\
  (inject_Z m - (angle / 15 - inject_Z h) * 60 <= 1 # 2)%Q.
Proof.
  intros Hlo Hhi h m.
  assert (En : ((angle + 360 - 360 * inject_Z 1) / 15 == angle / 15)%Q)
    by (qconst; ring).
  assert (Eh : JS.Math_floor ((angle + 360 - 360 * inject_Z 1) / 15) = h)
    by (unfold JS.Math_floor; now rewrite En).
  assert (Em : JS.Math_round
                 (((angle + 360 - 360 * inject_Z 1) / 15 - inject_Z h) * 60)
               = m)
    by (unfold JS.Math_round; now rewrite En).
  pose proof (Qfloor_le (angle / 15)) as F1.
  pose proof (Qlt_floor (angle / 15)) as F2.
  rewrite inject_Z_succ in F2. fold h in F1, F2.
  assert (Hh : 0 <= h < 24).
  { assert (A : (inject_Z (-1) < inject_Z h)%Q) by (qconst; lra).
    assert (B : (inject_Z h < inject_Z 24)%Q) by (qconst; lra).
    rewrite <- Zlt_Qlt in A, B. lia. }
  set (x := ((angle / 15 - inject_Z h) * 60)%Q) in *.
  pose proof (Qfloor_le (x + (1 # 2))) as R1.
  pose proof (Qlt_floor (x + (1 # 2))) as R2.
  rewrite inject_Z_succ in R2.
  change (Qfloor (x + (1 # 2))) with m in R1, R2.
  assert (Hx : (0 <= x)%Q /\ (x < 60)%Q) by (subst x; split; lra).
  split.
  { unfold angleToTime. rewrite rem_360 by lra. now rewrite Eh, Em. }
  split; [exact Hh |].
  split.
  { assert (A : (inject_Z (-1) < inject_Z m)%Q) by (qconst; lra).
    assert (B : (inject_Z m < inject_Z 61)%Q) by (qconst; lra).
    rewrite <- Zlt_Qlt in A, B. lia. }
  split; lra.
Qed.



(** X3.  For an angle in [0, 360) the result of [angleToTime] lies on
    the local day of the base date as long as the angle is below 359.875;
    from 359.875 on, the minutes round to 60 and the result is 00:00 of
    the following day. *)
Theorem angleToTime_day_rollover tz (angle : Q) (base : Date.t) :
  (0 <= angle)%Q -> (angle < 360)%Q ->
  let r := angleToTime tz angle base in
  ((angle < 359.875)%Q -> Date.localDay tz r = Date.localDay tz base) /\
  ((359.875 <= angle)%Q ->
   Date.localDay tz r = Date.localDay tz base + 1 /\
   Date.getHours tz r = 0 /\ Date.getMinutes tz r = 0).
Proof.
  intros Hlo Hhi r.
  destruct (angleToTime_first_turn tz angle base Hlo Hhi)
    as (E & Hh & Hm & B1 & B2).
  set (h := Qfloor (angle / 15)) in *.
  set (m := JS.Math_round ((angle / 15 - inject_Z h) * 60)) in *.
  assert (Em : (inject_Z (60 * h + m) == 60 * inject_Z h + inject_Z m)%Q)
    by (rewrite inject_Z_plus, inject_Z_mult; reflexivity).
  subst r. rewrite E. split.
  - intro Hd.
    assert (A : (inject_Z (60 * h + m) < inject_Z 1440)%Q)
      by (rewrite Em; qconst; lra).
    rewrite <- Zlt_Qlt in A. date_lia.
  - intro Hd.
    assert (A : (inject_Z 1439 < inject_Z (60 * h + m))%Q)
      by (rewrite Em; qconst; lra).
    rewrite <- Zlt_Qlt in A.
    assert (K : 60 * h + m = 1440) by lia.
    date_lia.
Qed.

Lemma angleToTime_day_rollover_witness :
  let r := angleToTime 0 (3599 # 10) 0 in
  (((3599 # 10) < 359.875)%Q -> Date.localDay 0 r = Date.localDay 0 0) /\
  ((359.875 <= (3599 # 10))%Q ->
   Date.localDay 0 r = Date.localDay 0 0 + 1 /\
   Date.getHours 0 r = 0 /\ Date.getMinutes 0 r = 0).
Proof.
  apply (angleToTime_day_rollover 0 (3599 # 10) 0);
    [unfold Qle; simpl; lia | reflexivity].
Defined.

Lemma floor_add_integer (x : Q) (k : Z) :
  Qfloor (x + inject_Z k) = Qfloor x + k.
Proof.
  pose proof (Qfloor_le x) as F1. pose proof (Qlt_floor x) as F2.
  rewrite inject_Z_succ in F2.
  apply floor_unique; rewrite inject_Z_plus; lra.
Qed.

Lemma round_near (x : Q) :
  (- (1 # 2) < inject_Z (JS.Math_round x) - x)%Q /\
  (inject_Z (JS.Math_round x) - x <= 1 # 2)%Q.
Proof.
  unfold JS.Math_round.
  pose proof (Qfloor_le (x + (1 # 2))) as F1.
  pose proof (Qlt_floor (x + (1 # 2))) as F2.
  rewrite inject_Z_succ in F2. split; lra.
Qed.

(** X4.  [snapAngleTo15Min] returns the grid point nearest to its
    argument, the upper one of two that are equally near: the result is
    more than -1.875 and at most 1.875 above the argument.  It never
    reverses the order of two angles, and it commutes with shifts by
    whole grid steps. *)
Theorem snapAngleTo15Min_nearest (angle : Q) :
  (- 1.875 < snapAngleTo15Min angle - angle)%Q /\
  (snapAngleTo15Min angle - angle <= 1.875)%Q /\
  (forall angle',
     (angle <= angle')%Q ->
     (snapAngleTo15Min angle <= snapAngleTo15Min angle')%Q) /\
  (forall k : Z,
     (snapAngleTo15Min (angle + inject_Z k * 3.75)
      == snapAngleTo15Min angle + inject_Z k * 3.75)%Q).
Proof.
  rewrite snap_gridIndex. unfold gridIndex.
  destruct (round_near (angle / 3.75)) as [N1 N2].
  split; [qconst; lra |]. split; [qconst; lra |]. split.
  - intros angle' Hle. rewrite snap_gridIndex. unfold gridIndex.
    assert (M : JS.Math_round (angle / 3.75)
                <= JS.Math_round (angle' / 3.75)).
    { apply Qfloor_resp_le. qconst. lra. }
    rewrite Zle_Qle in M. lra.
  - intro k. rewrite snap_gridIndex. unfold gridIndex.
    assert (E : JS.Math_round ((angle + inject_Z k * 3.75) / 3.75)
                = JS.Math_round (angle / 3.75) + k).
    { unfold JS.Math_round. rewrite <- floor_add_integer.
      apply Qfloor_comp. qconst. field. }
    rewrite E, inject_Z_plus. ring.
Qed.

(** [angleToTime] on a grid point of the first turn. *)
Lemma angleToTime_grid tz (k : Z) (base : Date.t) :
  0 <= k < 96 ->
  angleToTime tz (inject_Z k * 3.75) base
  = Date.setHours tz base (k / 4) (15 * (k mod 4)) 0 0.
Proof.
  intro Hk. apply angleToTime_of_fields;
    [Z.div_mod_to_equations; lia | Z.div_mod_to_equations; lia |].
  rewrite inject_Z_mult.
  assert (E : (inject_Z k == 4 * inject_Z (k / 4) + inject_Z (k mod 4))%Q).
  { rewrite (Z.div_mod k 4) at 1 by lia.
    rewrite inject_Z_plus, inject_Z_mult. reflexivity. }
  rewrite E at 1. qconst. field.
Qed.

(** X5.  For a pointer angle on the dial (0 to 360 degrees), the time
    that [angleToTime] gives for the snapped angle lies on a quarter hour
    of the base date's local day, and [timeToAngle] maps it back to the
    snapped angle, a snapped angle of 360 coming back as 0. *)
Theorem timeToAngle_angleToTime_snapped tz (angle : Q) (base : Date.t) :
  (0 <= angle)%Q -> (angle <= 360)%Q ->
  let snapped := snapAngleTo15Min angle in
  let r := angleToTime tz snapped base in
  Date.localDay tz r = Date.localDay tz base /\
  Date.getMinutes tz r mod 15 = 0 /\
  Date.getSeconds tz r = 0 /\ Date.getMilliseconds tz r = 0 /\
  ((snapped < 360)%Q -> (timeToAngle tz r == snapped)%Q) /\
  ((snapped == 360)%Q -> (timeToAngle tz r == 0)%Q).
Proof.
  intros Hlo Hhi snapped r. subst snapped r. rewrite snap_gridIndex.
  pose proof (gridIndex_range angle Hlo Hhi) as Hk.
  set (k := gridIndex angle) in *. clearbody k.
  destruct (Z.eq_dec k 96) as [-> | Hne].
  - rewrite (angleToTime_full_turn tz _ base) by reflexivity.
    destruct (setHours_fields tz base 0 0) as (F1 & F2 & F3 & F4 & F5);
      try lia.
    repeat split; try assumption.
    + now rewrite F2.
    + intro H. exfalso. revert H. apply Qle_not_lt.
      unfold Qle; simpl; lia.
    + intros _. unfold timeToAngle. rewrite F1, F2. reflexivity.
  - rewrite angleToTime_grid by lia.
    destruct (setHours_fields tz base (k / 4) (15 * (k mod 4)))
      as (F1 & F2 & F3 & F4 & F5);
      try (Z.div_mod_to_equations; lia).
    repeat split; try assumption.
    + rewrite F2. Z.div_mod_to_equations; lia.
    + intros _. unfold timeToAngle. rewrite F1, F2.
      rewrite inject_Z_mult.
      assert (E : (inject_Z k
                   == 4 * inject_Z (k / 4) + inject_Z (k mod 4))%Q).
      { rewrite (Z.div_mod k 4) at 1 by lia.
        rewrite inject_Z_plus, inject_Z_mult. reflexivity. }
      qconst. lra.
    + intro H. exfalso. apply Hne.
      apply (proj1 (inject_Z_injective k 96)). qconst. lra.
Qed.

Lemma timeToAngle_angleToTime_snapped_witness :
  let snapped := snapAngleTo15Min 100 in
  let r := angleToTime 0 snapped 0 in
  Date.localDay 0 r = Date.localDay 0 0 /\
  Date.getMinutes 0 r mod 15 = 0 /\
  Date.getSeconds 0 r = 0 /\ Date.getMilliseconds 0 r = 0 /\
  ((snapped < 360)%Q -> (timeToAngle 0 r == snapped)%Q) /\
  ((snapped == 360)%Q -> (timeToAngle 0 r == 0)%Q).
Proof.
  apply (timeToAngle_angleToTime_snapped 0 100 0); unfold Qle; simpl; lia.
Defined.

End KernelExtras.

(** ** Points, arcs and labels *)

Module RenderingExtras.
Import Tactics TimeUtils Notions JSFacts DateFacts TimeUtilsFacts ArcFacts.

Local Open Scope R_scope.

Lemma Q2R_numeral (n : Z) : Q2R (inject_Z n) = IZR n.
Proof. unfold Q2R, inject_Z. simpl. Lra.lra. Qed.

Lemma radians_plus_turn (a : Q) :
  Q2R (a + 360 - 90) * PI / 180 = Q2R (a - 90) * PI / 180 + 2 * PI.
Proof.
  rewrite !Q2R_minus, Q2R_plus.
  change 360%Q with (inject_Z 360). change 90%Q with (inject_Z 90).
  rewrite !Q2R_numeral. Lra.lra.
Qed.

Lemma radians_of_degrees (n : Z) :
  Q2R (inject_Z n - 90) * PI / 180 = (IZR n - 90) * PI / 180.
Proof.
  rewrite Q2R_minus. change 90%Q with (inject_Z 90).
  now rewrite !Q2R_numeral.
Qed.

(** A full turn more gives the same point. *)
Lemma polarToCartesian_turn (cx cy r a : Q) :
  polarToCartesian cx cy r (a + 360) = polarToCartesian cx cy r a.
Proof.
  unfold polarToCartesian. rewrite radians_plus_turn.
  rewrite cos_plus, sin_plus, cos_2PI, sin_2PI.
  f_equal; Lra.lra.
Qed.

Lemma polarToCartesian_Qeq (cx cy r a b : Q) :
  (a == b)%Q -> polarToCartesian cx cy r a = polarToCartesian cx cy r b.
Proof.
  intro E. unfold polarToCartesian.
  assert (E' : (a - 90 == b - 90)%Q) by now rewrite E.
  now rewrite (Qeq_eqR _ _ E').
Qed.

(** X6.  [polarToCartesian] returns a point of the circle around
    [(centerX, centerY)] with the given radius; a full turn more gives the
    same point; 0 degrees is the top of the circle (the smallest [y]),
    90 degrees its right, 180 its bottom and 270 its left. *)
Theorem polarToCartesian_on_circle (cx cy r a : Q) :
  let p := polarToCartesian cx cy r a in
  (Point.x p - Q2R cx) * (Point.x p - Q2R cx)
  + (Point.y p - Q2R cy) * (Point.y p - Q2R cy) = Q2R r * Q2R r /\
  polarToCartesian cx cy r (a + 360) = p /\
  polarToCartesian cx cy r 0 = Point.mk (Q2R cx) (Q2R cy - Q2R r) /\
  polarToCartesian cx cy r 90 = Point.mk (Q2R cx + Q2R r) (Q2R cy) /\
  polarToCartesian cx cy r 180 = Point.mk (Q2R cx) (Q2R cy + Q2R r) /\
  polarToCartesian cx cy r 270 = Point.mk (Q2R cx - Q2R r) (Q2R cy).
Proof.
  intro p. split.
  { subst p. unfold polarToCartesian. simpl.
    pose proof (sin2_cos2 (Q2R (a - 90) * PI / 180)) as T.
    unfold Rsqr in T. Lra.nra. }
  split; [apply polarToCartesian_turn |].
  unfold polarToCartesian.
  change 0%Q with (inject_Z 0). change 90%Q with (inject_Z 90).
  change 180%Q with (inject_Z 180). change 270%Q with (inject_Z 270).
  rewrite !radians_of_degrees.
  replace ((0 - 90) * PI / 180) with (- (PI / 2)) by Lra.lra.
  replace ((90 - 90) * PI / 180) with 0 by Lra.lra.
  replace ((180 - 90) * PI / 180) with (PI / 2) by Lra.lra.
  replace ((270 - 90) * PI / 180) with PI by Lra.lra.
  rewrite cos_neg, sin_neg, cos_PI2, sin_PI2, cos_0, sin_0, cos_PI, sin_PI.
  repeat split; f_equal; Lra.lra.
Qed.

Local Close Scope R_scope.

Section Wedge.

Variables center radius : Q.
Variable tz : Z.


(** X8.  The angle that [getMidPointAngle] returns lies halfway between
    the start angle and the forward end angle of the wedge: it is at
    least the start angle, less than 180 degrees beyond it, and so in
    [0, 540), which is why [getLabelAlignment] normalises its argument. *)
Theorem getMidPointAngle_halfway (activity : Activity) :
  let startAngle := timeToAngle tz (startTime activity) in
  let endAngle := timeToAngle tz (endTime activity) in
  let adjustedEndAngle :=
    if JS.ltb endAngle startAngle then (endAngle + 360)%Q else endAngle in
  let mid := Rendering.getMidPointAngle tz activity in
  (mid - startAngle == adjustedEndAngle - mid)%Q /\
  (startAngle <= mid)%Q /\ (mid < startAngle + 180)%Q /\
  (0 <= mid)%Q /\ (mid < 540)%Q.
Proof.
  intros startAngle endAngle adjustedEndAngle mid.
  destruct (timeToAngle_range tz (startTime activity)) as [S0 S1].
  destruct (timeToAngle_range tz (endTime activity)) as [E0 E1].
  fold startAngle in S0, S1. fold endAngle in E0, E1.
  subst mid adjustedEndAngle. unfold Rendering.getMidPointAngle.
  fold startAngle endAngle.
  destruct (JS.ltb endAngle startAngle) eqn:L;
    [apply ltb_lt in L | apply ltb_ge in L];
    qconst; repeat split; lra.
Qed.

End Wedge.

End RenderingExtras.

(** ** The alignment of labels *)

Module LabelExtras.
Import Tactics Notions JSFacts KernelExtras.

Lemma trunc_opp (x : Q) : JS.trunc (- x) = - JS.trunc x.
Proof.
  destruct x as [n d]. unfold JS.trunc. simpl. apply Z.quot_opp_l. lia.
Qed.

(** Truncation is within one of its argument, on the side of zero. *)
Lemma trunc_near (x : Q) :
  ((0 <= x)%Q ->
   (inject_Z (JS.trunc x) <= x)%Q /\ (x < inject_Z (JS.trunc x) + 1)%Q) /\
  ((x <= 0)%Q ->
   (x <= inject_Z (JS.trunc x))%Q /\ (inject_Z (JS.trunc x) - 1 < x)%Q).
Proof.
  split; intro H.
  - rewrite trunc_nonneg by assumption.
    pose proof (Qfloor_le x). pose proof (Qlt_floor x) as F.
    rewrite inject_Z_succ in F. split; assumption.
  - assert (E : JS.trunc x = - Qfloor (- x)).
    { rewrite <- trunc_nonneg by lra. rewrite trunc_opp. lia. }
    rewrite E, inject_Z_opp.
    pose proof (Qfloor_le (- x)). pose proof (Qlt_floor (- x)) as F.
    rewrite inject_Z_succ in F. split; lra.
Qed.

(** [x % 360] differs from [x] by a whole number of turns and is less
    than a turn in absolute value, on the side of [x]. *)
Lemma rem_turns (x : Q) :
  (JS.rem x 360 == x - 360 * inject_Z (JS.trunc (x / 360)))%Q /\
  (- 360 < JS.rem x 360)%Q /\ (JS.rem x 360 < 360)%Q /\
  ((0 <= x)%Q -> (0 <= JS.rem x 360)%Q).
Proof.
  unfold JS.rem. split; [reflexivity |].
  destruct (trunc_near (x / 360)) as [P N].
  destruct (Qlt_le_dec x 0) as [L | L].
  - destruct N as [N1 N2]; [qconst; lra |]. qconst.
    repeat split; try lra.
  - destruct P as [P1 P2]; [qconst; lra |]. qconst.
    repeat split; lra.
Qed.

(** The value of [normalizedAngle] in [getLabelAlignment]. *)
Lemma normalized_turns (angle : Q) :
  let n := JS.rem (JS.rem angle 360 + 360) 360 in
  (0 <= n)%Q /\ (n < 360)%Q /\
  exists j : Z, (n == angle - 360 * inject_Z j)%Q.
Proof.
  intro n.
  destruct (rem_turns angle) as (E1 & L1 & U1 & _).
  destruct (rem_turns (JS.rem angle 360 + 360)) as (E2 & _ & U2 & N2).
  fold n in E2, U2, N2.
  split; [apply N2; lra |]. split; [exact U2 |].
  exists (JS.trunc (angle / 360) + - (1)
          + JS.trunc ((JS.rem angle 360 + 360) / 360)).
  subst n. unfold JS.rem. rewrite !inject_Z_plus, inject_Z_opp.
  change (inject_Z 1) with 1%Q. ring.
Qed.

(** The alignment follows from where the normalised angle lies. *)
Lemma alignment_by_normalized (angle : Q) :
  let n := JS.rem (JS.rem angle 360 + 360) 360 in
  ((0 < n)%Q -> (n < 180)%Q ->
   Rendering.getLabelAlignment angle = "start"%string) /\
  ((180 < n)%Q -> (n < 360)%Q ->
   Rendering.getLabelAlignment angle = "end"%string) /\
  ((n == 0)%Q \/ (n == 180)%Q ->
   Rendering.getLabelAlignment angle = "middle"%string).
Proof.
  intro n. unfold Rendering.getLabelAlignment. fold n.
  destruct (JS.gtb n 0) eqn:G0; [apply gtb_gt in G0 | apply gtb_le in G0];
    (destruct (JS.ltb n 180) eqn:L1;
     [apply ltb_lt in L1 | apply ltb_ge in L1]);
    (destruct (JS.gtb n 180) eqn:G1;
     [apply gtb_gt in G1 | apply gtb_le in G1]);
    (destruct (JS.ltb n 360) eqn:L3;
     [apply ltb_lt in L3 | apply ltb_ge in L3]);
    cbn [andb]; repeat split; intros; try reflexivity; exfalso;
    try lra;
    match goal with H : _ \/ _ |- _ => destruct H; lra end.
Qed.

Lemma whole_turns_apart (n n' : Q) (z : Z) :
  (0 <= n)%Q -> (n < 360)%Q -> (0 <= n')%Q -> (n' < 360)%Q ->
  (n' - n == 360 * inject_Z z)%Q -> (n' == n)%Q.
Proof.
  intros H1 H2 H3 H4 E.
  assert (A : (inject_Z (-1) < inject_Z z)%Q) by (qconst; lra).
  assert (B : (inject_Z z < inject_Z 1)%Q) by (qconst; lra).
  rewrite <- Zlt_Qlt in A, B. assert (z = 0) by lia. subst z.
  qconst. lra.
Qed.

(** X9.  [getLabelAlignment] depends on its angle only up to whole
    turns, negative angles included.  It answers "middle" exactly for the
    multiples of 180 degrees, "start" for the angles of the right half of
    the dial and "end" for those of the left half. *)
Theorem getLabelAlignment_halves (angle : Q) :
  (forall j : Z,
     Rendering.getLabelAlignment (angle + 360 * inject_Z j)
     = Rendering.getLabelAlignment angle) /\
  (Rendering.getLabelAlignment angle = "middle"%string <->
   exists k : Z, (angle == 180 * inject_Z k)%Q) /\
  ((0 < angle)%Q -> (angle < 180)%Q ->
   Rendering.getLabelAlignment angle = "start"%string) /\
  ((180 < angle)%Q -> (angle < 360)%Q ->
   Rendering.getLabelAlignment angle = "end"%string) /\
  ((-180 < angle)%Q -> (angle < 0)%Q ->
   Rendering.getLabelAlignment angle = "end"%string).
Proof.
  destruct (normalized_turns angle) as (N0 & N1 & j0 & Ej).
  destruct (alignment_by_normalized angle) as (As & Ae & Am).
  set (n := JS.rem (JS.rem angle 360 + 360) 360) in *.
  assert (Cases : ((0 < n)%Q /\ (n < 180)%Q) \/ ((180 < n)%Q /\ (n < 360)%Q)
                  \/ (n == 0)%Q \/ (n == 180)%Q).
  { destruct (Q_dec n 0) as [[L | G] | E]; [lra | | auto].
    destruct (Q_dec n 180) as [[L' | G'] | E']; auto. }
  split.
  { intro j.
    destruct (normalized_turns (angle + 360 * inject_Z j))
      as (M0 & M1 & j1 & Ej1).
    destruct (alignment_by_normalized (angle + 360 * inject_Z j))
      as (Bs & Be & Bm).
    set (n' := JS.rem (JS.rem (angle + 360 * inject_Z j) 360 + 360) 360)
      in *.
    assert (E : (n' == n)%Q).
    { apply (whole_turns_apart n n' (j - j1 + j0)); try assumption.
      rewrite Ej1, Ej, inject_Z_plus, inject_Z_sub. ring. }
    destruct Cases as [[C1 C2] | [[C1 C2] | C]].
    - rewrite As by assumption. apply Bs; lra.
    - rewrite Ae by assumption. apply Be; lra.
    - rewrite Am by assumption. apply Bm. destruct C; [left | right]; lra. }
  split.
  { split.
    - intro H.
      destruct Cases as [[C1 C2] | [[C1 C2] | [C | C]]].
      + rewrite As in H by assumption. discriminate.
      + rewrite Ae in H by assumption. discriminate.
      + exists (2 * j0). rewrite inject_Z_mult. qconst. lra.
      + exists (2 * j0 + 1). rewrite inject_Z_plus, inject_Z_mult.
        qconst. lra.
    - intros (k & Ek). apply Am.
      assert (A : (inject_Z (-1) < inject_Z (k - 2 * j0))%Q)
        by (rewrite inject_Z_sub, inject_Z_mult; qconst; lra).
      assert (B : (inject_Z (k - 2 * j0) < inject_Z 2)%Q)
        by (rewrite inject_Z_sub, inject_Z_mult; qconst; lra).
      rewrite <- Zlt_Qlt in A, B.
      assert (K : k = 2 * j0 \/ k = 2 * j0 + 1) by lia.
      destruct K as [-> | ->];
        rewrite ?inject_Z_plus, inject_Z_mult in Ek; qconst;
        [left | right]; lra. }
  assert (Near : forall z : Z,
            (- 360 < angle - 360 * inject_Z z)%Q ->
            (angle - 360 * inject_Z z < 360)%Q ->
            (0 <= angle - 360 * inject_Z z)%Q ->
            (n == angle - 360 * inject_Z z)%Q).
  { intros z Z1 Z2 Z3.
    apply (whole_turns_apart (angle - 360 * inject_Z z) n (z - j0));
      try assumption.
    rewrite Ej, inject_Z_sub. ring. }
  split; [| split].
  - intros H1 H2. apply As;
      rewrite (Near 0); qconst; lra.
  - intros H1 H2. apply Ae;
      rewrite (Near 0); qconst; lra.
  - intros H1 H2. apply Ae;
      rewrite (Near (-1)); qconst; lra.
Qed.

End LabelExtras.

(** ** The store: lookups, replacements and removals *)

Module ServiceExtras.
Import Service ServiceFacts.

(** Where [findIndex] stops, and what assigning at that index does. *)
Lemma findIndex_split {A} (p : A -> bool) (l : list A) :
  (exists x, In x l /\ p x = true) ->
  exists pre x post,
    l = pre ++ x :: post /\ p x = true /\
    (forall y, In y pre -> p y = false) /\
    JS.findIndex p l = Some (List.length pre) /\
    forall v, JS.setAt (List.length pre) v l = pre ++ v :: post.
Proof.
  induction l as [| a l IH]; intros (x & Hin & Hx); [destruct Hin |].
  destruct (p a) eqn:Ea.
  - exists [], a, l. simpl. rewrite Ea. repeat split; auto.
    intros y [].
  - destruct Hin as [-> | Hin]; [congruence |].
    destruct IH as (pre & y & post & El & Hy & Hpre & Hi & Hset);
      [now exists x |].
    exists (a :: pre), y, post. simpl. rewrite Ea, Hi, El.
    repeat split; auto.
    + intros z [<- | Hz]; auto.
    + intro v. f_equal. rewrite <- El. apply Hset.
Qed.

Lemma findIndex_app_found {A} (p : A -> bool) (pre post : list A) (x : A) :
  (forall y, In y pre -> p y = false) -> p x = true ->
  JS.findIndex p (pre ++ x :: post) = Some (List.length pre).
Proof.
  intros Hpre Hx. induction pre as [| a pre IH]; simpl.
  - now rewrite Hx.
  - rewrite (Hpre a (or_introl eq_refl)), IH; [reflexivity |].
    intros y Hy. apply Hpre. now right.
Qed.

Lemma setAt_app {A} (pre post : list A) (x v : A) :
  JS.setAt (List.length pre) v (pre ++ x :: post) = pre ++ v :: post.
Proof. induction pre as [| a pre IH]; simpl; [reflexivity | now rewrite IH]. Qed.

(** X10.  When some stored activity has the identifier of [activity],
    [updateActivity] replaces the first stored activity with that
    identifier and nothing else: the activities before and after it, the
    length of the list and the list of identifiers stay as they were, and
    the new list is persisted.  Updating twice with the same activity is
    the same as updating once. *)
Theorem updateActivity_replaces_first (activity : Activity) (this : t) :
  (exists x, In x (activitiesSubject this) /\ id x = id activity) ->
  exists pre old post,
    activitiesSubject this = pre ++ old :: post /\
    (forall x, In x pre -> id x <> id activity) /\
    id old = id activity /\
    activitiesSubject (updateActivity activity this)
    = pre ++ activity :: post /\
    localStorage (updateActivity activity this)
    = Some (pre ++ activity :: post) /\
    map id (activitiesSubject (updateActivity activity this))
    = map id (activitiesSubject this) /\
    updateActivity activity (updateActivity activity this)
    = updateActivity activity this.
Proof.
  intros (x & Hin & Hx).
  destruct (findIndex_split (fun a => (id a =? id activity)%string)
              (activitiesSubject this))
    as (pre & old & post & El & Hold & Hpre & Hi & Hset).
  { exists x. split; [exact Hin | now apply String.eqb_eq]. }
  exists pre, old, post.
  apply String.eqb_eq in Hold.
  assert (Hu : updateActivity activity this
               = publish (pre ++ activity :: post)).
  { unfold updateActivity. cbv zeta. now rewrite Hi, Hset. }
  split; [exact El |].
  split; [intros y Hy; apply String.eqb_neq; now apply Hpre |].
  split; [exact Hold |].
  rewrite Hu. split; [reflexivity |]. split; [reflexivity |].
  split.
  - simpl. rewrite El, !map_app. simpl. now rewrite Hold.
  - unfold updateActivity at 1. simpl.
    rewrite findIndex_app_found, setAt_app;
      [reflexivity | exact Hpre | apply String.eqb_refl].
Qed.

Lemma updateActivity_replaces_first_witness :
  let stored := mkActivity "a" "Lunch" 43200000 46800000 60 "#54a0ff" in
  let other := mkActivity "b" "Walk" 50400000 54000000 60 "#1dd1a1" in
  let edited := mkActivity "b" "Run" 50400000 52200000 30 "#ff5e57" in
  let this := mk [stored; other; other] (Some [stored; other; other]) in
  exists pre old post,
    activitiesSubject this = pre ++ old :: post /\
    (forall x, In x pre -> id x <> id edited) /\
    id old = id edited /\
    activitiesSubject (updateActivity edited this)
    = pre ++ edited :: post /\
    localStorage (updateActivity edited this)
    = Some (pre ++ edited :: post) /\
    map id (activitiesSubject (updateActivity edited this))
    = map id (activitiesSubject this) /\
    updateActivity edited (updateActivity edited this)
    = updateActivity edited this.
Proof.
  intros stored other edited this.
  apply (updateActivity_replaces_first edited this).
  exists other. split; [simpl; auto | reflexivity].
Defined.

(** X11.  [deleteActivity] removes every stored activity that has the
    given identifier and keeps all the others, in their order: an
    activity is in the new list exactly when it was stored under another
    identifier, the activities kept form the sublist of those with
    another identifier, and the new list is persisted.  Deleting twice is
    the same as deleting once, and two deletions commute. *)
Theorem deleteActivity_removes_all (id' : string) (this : t) :
  let kept := activitiesSubject (deleteActivity id' this) in
  (forall x, In x kept <-> In x (activitiesSubject this) /\ id x <> id') /\
  (forall idx, idx <> id' ->
     filter (fun a => (id a =? idx)%string) kept
     = filter (fun a => (id a =? idx)%string) (activitiesSubject this)) /\
  (List.length kept <= List.length (activitiesSubject this))%nat /\
  localStorage (deleteActivity id' this) = Some kept /\
  deleteActivity id' (deleteActivity id' this) = deleteActivity id' this /\
  (forall id'',
     deleteActivity id' (deleteActivity id'' this)
     = deleteActivity id'' (deleteActivity id' this)).
Proof.
  intro kept. subst kept. unfold deleteActivity, publish. simpl.
  split.
  { intro x. rewrite filter_In, negb_true_iff, String.eqb_neq. reflexivity. }
  split.
  { intros idx Hne. induction (activitiesSubject this) as [| a l IH];
      [reflexivity |].
    simpl. destruct (id a =? id')%string eqn:E1; simpl.
    - apply String.eqb_eq in E1.
      destruct (id a =? idx)%string eqn:E2; [| exact IH].
      apply String.eqb_eq in E2. congruence.
    - destruct (id a =? idx)%string; now rewrite IH. }
  split; [apply filter_length_le |].
  split; [reflexivity |].
  split.
  { f_equal; [| f_equal]; induction (activitiesSubject this) as [| a l IH];
      simpl; try reflexivity;
      destruct (id a =? id')%string eqn:E; simpl; rewrite ?E; simpl;
      now rewrite ?IH. }
  intro id''.
  assert (C : forall l,
    filter (fun a => negb (id a =? id')%string)
      (filter (fun a => negb (id a =? id'')%string) l)
    = filter (fun a => negb (id a =? id'')%string)
        (filter (fun a => negb (id a =? id')%string) l)).
  { induction l as [| a l IH]; [reflexivity |]. simpl.
    destruct (id a =? id')%string eqn:E1;
      destruct (id a =? id'')%string eqn:E2; simpl;
      rewrite ?E1, ?E2; simpl; now rewrite IH. }
  now rewrite C.
Qed.

Lemma find_app_fresh (idx : string) (l : list Activity) (a : Activity) :
  (forall x, In x l -> id x <> idx) -> id a = idx ->
  find (fun x => (id x =? idx)%string) (l ++ [a]) = Some a.
Proof.
  intros Hl Ha. induction l as [| b l IH]; simpl.
  - now rewrite Ha, String.eqb_refl.
  - rewrite (proj2 (String.eqb_neq _ _) (Hl b (or_introl eq_refl))).
    apply IH. intros x Hx. apply Hl. now right.
Qed.

(** X12.  An activity added under an identifier that no stored activity
    has is appended to the list and found again under that identifier;
    an update under that identifier then replaces exactly the appended
    activity, and deleting the identifier gives back the list as it was
    before the addition. *)
Theorem addActivity_then_lookup (activity edited : Activity) (this : t) :
  (forall x, In x (activitiesSubject this) -> id x <> id activity) ->
  id edited = id activity ->
  let added := addActivity activity this in
  activitiesSubject added = activitiesSubject this ++ [activity] /\
  localStorage added = Some (activitiesSubject this ++ [activity]) /\
  find (fun x => (id x =? id activity)%string) (activitiesSubject added)
  = Some activity /\
  activitiesSubject (updateActivity edited added)
  = activitiesSubject this ++ [edited] /\
  activitiesSubject (deleteActivity (id activity) added)
  = activitiesSubject this.
Proof.
  intros Hfresh Hid added. subst added. unfold addActivity. simpl.
  split; [reflexivity |]. split; [reflexivity |].
  split; [now apply find_app_fresh |].
  split.
  - unfold updateActivity. simpl. rewrite Hid.
    rewrite findIndex_app_found, setAt_app;
      [reflexivity | | apply String.eqb_refl].
    intros y Hy. apply String.eqb_neq. now apply Hfresh.
  - rewrite filter_app. simpl. rewrite String.eqb_refl. simpl.
    rewrite app_nil_r. apply filter_all.
    intros x Hx. apply negb_true_iff, String.eqb_neq. now apply Hfresh.
Qed.

Lemma addActivity_then_lookup_witness :
  let stored := mkActivity "a" "Lunch" 43200000 46800000 60 "#54a0ff" in
  let other := mkActivity "b" "Walk" 50400000 54000000 60 "#1dd1a1" in
  let edited := mkActivity "b" "Run" 50400000 52200000 30 "#ff5e57" in
  let this := mk [stored] (Some [stored]) in
  let added := addActivity other this in
  activitiesSubject added = activitiesSubject this ++ [other] /\
  localStorage added = Some (activitiesSubject this ++ [other]) /\
  find (fun x => (id x =? id other)%string) (activitiesSubject added)
  = Some other /\
  activitiesSubject (updateActivity edited added)
  = activitiesSubject this ++ [edited] /\
  activitiesSubject (deleteActivity (id other) added)
  = activitiesSubject this.
Proof.
  intros stored other edited this.
  apply (addActivity_then_lookup other edited this).
  - intros x [<- | []]. simpl. discriminate.
  - reflexivity.
Defined.

Lemma call_keeps_sync (c : Calls.Call) (s : t) :
  (Calls.inSync s -> Calls.inSync (Calls.call c s)) /\
  (s = Calls.fresh ->
   Calls.inSync (Calls.call c s) \/ Calls.call c s = Calls.fresh).
Proof.
  unfold Calls.inSync.
  destruct c as [a | a | i |]; simpl; split; intro H;
    try reflexivity; try (left; reflexivity).
  - unfold updateActivity. cbv zeta.
    destruct (JS.findIndex _ _); [reflexivity | exact H].
  - right. subst s. reflexivity.
Qed.

(** X13.  The store writes the array it holds after every call that
    changes it, and an update that finds nothing writes nothing.  So once
    the persisted item equals the list held in memory it stays equal
    through any sequence of add, update, delete and clear calls; and a
    store constructed on an empty storage is either still untouched or
    persisted in full, whatever calls were made. *)
Theorem store_stays_in_sync (calls : list Calls.Call) :
  (forall this,
     Calls.inSync this -> Calls.inSync (Calls.run calls this)) /\
  (Calls.inSync (Calls.run calls Calls.fresh) \/
   Calls.run calls Calls.fresh = Calls.fresh).
Proof.
  assert (K : forall this,
            Calls.inSync this -> Calls.inSync (Calls.run calls this)).
  { unfold Calls.run. induction calls as [| c calls IH]; intros this H;
      [exact H |].
    simpl. apply IH. now apply call_keeps_sync. }
  split; [exact K |].
  unfold Calls.run in *. clear K.
  assert (G : forall s,
            Calls.inSync s \/ s = Calls.fresh ->
            Calls.inSync (fold_left (fun s c => Calls.call c s) calls s) \/
            fold_left (fun s c => Calls.call c s) calls s = Calls.fresh).
  { induction calls as [| c calls IH]; intros s H; [exact H |].
    simpl. apply IH. destruct H as [H | H].
    - left. now apply call_keeps_sync.
    - now apply call_keeps_sync. }
  apply G. now right.
Qed.

(** X14.  [isOverlapping] answers whether some stored activity, other
    than those under a non-empty [excludeId], overlaps the given one by
    the strict test.  An empty [excludeId] excludes nothing; and a stored
    activity that ends after it starts overlaps itself, so the query on
    it is true unless its identifier is excluded. *)
Theorem isOverlapping_spec (newActivity : Activity)
    (excludeId : option string) (this : t) :
  (ServiceQueries.isOverlapping newActivity excludeId this = true <->
   exists a,
     In a (activitiesSubject this) /\
     (forall e, excludeId = Some e -> e = ""%string \/ id a <> e) /\
     Date.getTime (startTime newActivity) < Date.getTime (endTime a) /\
     Date.getTime (endTime newActivity) > Date.getTime (startTime a)) /\
  ServiceQueries.isOverlapping newActivity (Some ""%string) this
  = ServiceQueries.isOverlapping newActivity None this /\
  (In newActivity (activitiesSubject this) ->
   Date.getTime (startTime newActivity) < Date.getTime (endTime newActivity)
   -> ServiceQueries.isOverlapping newActivity None this = true) /\
  (activitiesSubject this = [] ->
   ServiceQueries.isOverlapping newActivity excludeId this = false).
Proof.
  assert (Ex : forall a,
    ServiceQueries.isExcluded excludeId a = false <->
    forall e, excludeId = Some e -> e = ""%string \/ id a <> e).
  { intro a. unfold ServiceQueries.isExcluded, JS.truthy_string.
    destruct excludeId as [e |].
    - rewrite andb_false_iff, negb_false_iff, String.eqb_eq, String.eqb_neq.
      split.
      + intros H e' [= <-]. exact H.
      + intro H. now apply H.
    - split; [intros _ e' H; discriminate | reflexivity]. }
  assert (Spec : ServiceQueries.isOverlapping newActivity excludeId this
                 = true <->
    exists a,
      In a (activitiesSubject this) /\
      (forall e, excludeId = Some e -> e = ""%string \/ id a <> e) /\
      Date.getTime (startTime newActivity) < Date.getTime (endTime a) /\
      Date.getTime (endTime newActivity) > Date.getTime (startTime a)).
  { unfold ServiceQueries.isOverlapping. cbv zeta. rewrite existsb_exists.
    split.
    - intros (a & Hin & H). exists a. split; [exact Hin |].
      destruct (ServiceQueries.isExcluded excludeId a) eqn:E;
        [discriminate |].
      apply andb_true_iff in H. rewrite Z.ltb_lt, Z.gtb_gt in H.
      split; [now apply Ex | exact H].
    - intros (a & Hin & He & H). exists a. split; [exact Hin |].
      rewrite (proj2 (Ex a) He).
      apply andb_true_iff. now rewrite Z.ltb_lt, Z.gtb_gt. }
  split; [exact Spec |].
  split; [reflexivity |].
  split.
  - intros Hin Hlt. unfold ServiceQueries.isOverlapping. cbv zeta.
    apply existsb_exists. exists newActivity. split; [exact Hin |].
    simpl. apply andb_true_iff. rewrite Z.ltb_lt, Z.gtb_gt. lia.
  - intro He. unfold ServiceQueries.isOverlapping. now rewrite He.
Qed.

End ServiceExtras.

(** ** How many rings the layout needs *)

Module LayoutExtras.
Import Tactics Layout Notions LayoutFacts.

(** A list that holds every number below [n] has at least [n]
    elements. *)
Lemma holds_all_below (n : nat) (l : list nat) :
  (forall k, (k < n)%nat -> In k l) -> (n <= List.length l)%nat.
Proof.
  intro H.
  assert (L : (List.length (seq 0 n) <= List.length l)%nat).
  { apply NoDup_incl_length; [apply seq_NoDup |].
    intros k Hk. apply in_seq in Hk. apply H. lia. }
  now rewrite length_seq in L.
Qed.

Lemma lowestFree_bound (pre : list LeveledActivity) (r : LeveledActivity) :
  lowestFree pre r ->
  (level r
   <= List.length
        (filter (fun p => areOverlapping (activity r) (activity p)) pre))%nat.
Proof.
  intros [_ Hlow].
  rewrite <- (length_map level). apply holds_all_below.
  intros k Hk. destruct (Hlow k Hk) as (p & Hin & Hl & Ho).
  apply in_map_iff. exists p. split; [exact Hl |].
  apply filter_In. now split.
Qed.

(** The layout of any list, with the facts about it that the proofs
    below share. *)
Lemma layout_exists (activities : list Activity) :
  exists result,
    leveledActivities activities = Some result /\
    map activity result = sort activities /\
    forall pre r post, result = pre ++ r :: post -> lowestFree pre r.
Proof.
  unfold leveledActivities.
  destruct (placeAll_greedy (sort activities) []) as (result & Hp & Hm & Hg).
  exists result. simpl in Hp. repeat split; try assumption.
  all: destruct (Hg pre r post H) as [A B]; assumption.
Qed.

(** X15.  [leveledActivities] gives every activity exactly one entry, and
    the level of an entry is at most the number of entries before it
    whose activities overlap it: an activity that overlaps none of the
    earlier ones is at level 0, and no level reaches the number of
    activities. *)
Theorem leveledActivities_level_bound (activities : list Activity) :
  exists result,
    leveledActivities activities = Some result /\
    List.length result = List.length activities /\
    forall pre r post,
      result = pre ++ r :: post ->
      (level r
       <= List.length
            (filter (fun p => areOverlapping (activity r) (activity p))
                    pre))%nat /\
      (level r <= List.length pre)%nat /\
      (level r < List.length activities)%nat /\
      ((forall p, In p pre ->
          areOverlapping (activity r) (activity p) = false) ->
       level r = 0%nat).
Proof.
  destruct (layout_exists activities) as (result & Hr & Hm & Hg).
  exists result. split; [exact Hr |].
  assert (Hlen : List.length result = List.length activities).
  { rewrite <- (length_map activity), Hm.
    apply Permutation_length, sort_perm. }
  split; [exact Hlen |].
  intros pre r post E.
  pose proof (lowestFree_bound pre r (Hg pre r post E)) as B.
  pose proof (filter_length_le
                (fun p => areOverlapping (activity r) (activity p)) pre) as F.
  split; [exact B |]. split; [lia |].
  split.
  - rewrite <- Hlen, E, length_app. simpl. lia.
  - intro Hnone.
    assert (Z : filter (fun p => areOverlapping (activity r) (activity p))
                  pre = []).
    { clear -Hnone. induction pre as [| p pre IH]; [reflexivity |].
      simpl. rewrite (Hnone p (or_introl eq_refl)).
      apply IH. intros q Hq. apply Hnone. now right. }
    rewrite Z in B. simpl in B. lia.
Qed.

(** X16.  In the layout, two activities that overlap are drawn on rings
    whose radii differ by at least 25, and every ring has a radius
    between [radius] and [radius + 25 * (n - 1)] for [n] activities. *)
Theorem overlapping_rings_apart (radius : Q) (activities : list Activity) :
  exists result,
    leveledActivities activities = Some result /\
    (forall pre r mid r' post,
       result = pre ++ r :: mid ++ r' :: post ->
       areOverlapping (activity r) (activity r') = true ->
       (25 <= Qabs (Rendering.getActivityRadius radius (level r)
                    - Rendering.getActivityRadius radius (level r')))%Q) /\
    (forall r,
       In r result ->
       (radius <= Rendering.getActivityRadius radius (level r))%Q /\
       (Rendering.getActivityRadius radius (level r)
        <= radius
           + 25 * (inject_Z (Z.of_nat (List.length activities)) - 1))%Q).
Proof.
  destruct (layout_exists activities) as (result & Hr & Hm & Hg).
  exists result. split; [exact Hr |].
  assert (Hlen : List.length result = List.length activities).
  { rewrite <- (length_map activity), Hm.
    apply Permutation_length, sort_perm. }
  unfold Rendering.getActivityRadius. split.
  - intros pre r mid r' post E Ho.
    pose proof (greedy_separates result Hg pre r mid r' post E Ho) as Hne.
    assert (D : Z.of_nat (level r) - Z.of_nat (level r') <= -1 \/
                1 <= Z.of_nat (level r) - Z.of_nat (level r')) by lia.
    assert (Eq : (radius + inject_Z (Z.of_nat (level r)) * 25
                  - (radius + inject_Z (Z.of_nat (level r')) * 25)
                  == 25 * inject_Z (Z.of_nat (level r)
                                    - Z.of_nat (level r')))%Q).
    { unfold Z.sub. rewrite inject_Z_plus, inject_Z_opp. ring. }
    rewrite Eq. destruct D as [D | D]; rewrite Zle_Qle in D.
    + change (inject_Z (-1)) with (-1)%Q in D. rewrite Qabs_neg; lra.
    + change (inject_Z 1) with 1%Q in D. rewrite Qabs_pos; lra.
  - intros r Hin.
    destruct (in_split r result Hin) as (pre & post & E).
    pose proof (lowestFree_bound pre r (Hg pre r post E)) as B.
    pose proof (filter_length_le
                  (fun p => areOverlapping (activity r) (activity p)) pre)
      as F.
    assert (L : (level r < List.length activities)%nat).
    { rewrite <- Hlen, E, length_app. simpl. lia. }
    assert (L0 : 0 <= Z.of_nat (level r)) by lia.
    assert (L1 : Z.of_nat (level r)
                 <= Z.of_nat (List.length activities) - 1) by lia.
    rewrite Zle_Qle in L0, L1.
    unfold Z.sub in L1. rewrite inject_Z_plus, inject_Z_opp in L1.
    change (inject_Z 0) with 0%Q in L0.
    change (inject_Z 1) with 1%Q in L1.
    split; lra.
Qed.

End LayoutExtras.

(** ** Drags, clicks and the modal *)

Module ControllerExtras.
Import Tactics TimeUtils Notions JSFacts DateFacts TimeUtilsFacts SnapFacts.
Import ControllerFacts DurationFacts KernelExtras ServiceExtras.

Lemma find_app_first {A} (p : A -> bool) (pre post : list A) (x : A) :
  (forall y, In y pre -> p y = false) -> p x = true ->
  find p (pre ++ x :: post) = Some x.
Proof.
  intros Hpre Hx. induction pre as [| a pre IH]; simpl.
  - now rewrite Hx.
  - rewrite (Hpre a (or_introl eq_refl)). apply IH.
    intros y Hy. apply Hpre. now right.
Qed.

(** What [updateActivity u] does to a list in which [act] is the first
    activity under the dragged identifier. *)
Lemma update_found (dragged : option string) (svc : Service.t)
    (act u : Activity) :
  find (idIs dragged) (Service.getActivities svc) = Some act ->
  id u = id act ->
  exists pre post,
    Service.activitiesSubject svc = pre ++ act :: post /\
    (forall y, In y pre -> id y <> id act) /\
    Service.activitiesSubject (Service.updateActivity u svc)
    = pre ++ u :: post.
Proof.
  intros Hf Hid. unfold Service.getActivities in Hf.
  pose proof (find_holds _ _ _ Hf) as Hact.
  destruct dragged as [d |]; [| discriminate].
  cbn in Hact. apply String.eqb_eq in Hact.
  change (idIs (Some d)) with (fun a => (id a =? d)%string) in Hf.
  destruct (findIndex_split (fun a => (id a =? d)%string)
              (Service.activitiesSubject svc))
    as (pre & old & post & El & Hold & Hpre & Hi & Hset).
  { exists act. split; [now apply find_some in Hf |].
    now apply String.eqb_eq. }
  assert (old = act).
  { rewrite El, (find_app_first _ pre post old Hpre Hold) in Hf.
    congruence. }
  subst old. exists pre, post.
  split; [exact El |].
  split; [intros y Hy; rewrite Hact; apply String.eqb_neq; now apply Hpre |].
  unfold Service.updateActivity. cbv zeta. rewrite Hid, Hact, Hi.
  simpl. apply Hset.
Qed.

Lemma updatedActivity_label tz (this : Component.t) (act : Activity)
    (sn : Q) :
  let u := Component.updatedActivity tz this act sn in
  id u = id act /\ title u = title act /\ color u = color act.
Proof.
  unfold Component.updatedActivity.
  destruct (Component.dragMode this); try (repeat split; reflexivity).
  destruct (Component.initialStartTime this); [| repeat split; reflexivity].
  destruct (Component.initialEndTime this); repeat split; reflexivity.
Qed.

Lemma updatedActivityV2_label tz (this : ComponentV2.t) (act : Activity)
    (sn : Q) :
  let u := ComponentV2.updatedActivity tz this act sn in
  id u = id act /\ title u = title act /\ color u = color act.
Proof.
  unfold ComponentV2.updatedActivity.
  destruct (ComponentV2.dragMode this); repeat split; reflexivity.
Qed.

(** X17.  A pointer-move never adds, removes or reorders activities, and
    it touches at most the dragged one: in either component variant the
    list after the handler is the list before it, or that list with the
    first activity under the dragged identifier replaced by one of the
    same identifier, title and colour. *)
Theorem pointer_move_frame tz (angle : Q) :
  (forall this : Component.t,
     let before := Component.activities this in
     let after := Component.activities (Component.onMove tz angle this) in
     after = before \/
     exists pre act post u,
       before = pre ++ act :: post /\ after = pre ++ u :: post /\
       (forall y, In y pre -> id y <> id act) /\
       Component.draggedActivityId this = Some (id act) /\
       id u = id act /\ title u = title act /\ color u = color act) /\
  (forall this : ComponentV2.t,
     let before := ComponentV2.activities this in
     let after :=
       ComponentV2.activities (ComponentV2.onMouseMove tz angle this) in
     after = before \/
     exists pre act post u,
       before = pre ++ act :: post /\ after = pre ++ u :: post /\
       (forall y, In y pre -> id y <> id act) /\
       ComponentV2.draggedActivityId this = Some (id act) /\
       id u = id act /\ title u = title act /\ color u = color act).
Proof.
  assert (Dragged : forall d l act,
            find (idIs d) l = Some act -> d = Some (id act)).
  { intros d l act Hf. pose proof (find_holds _ _ _ Hf) as H.
    destruct d as [d |]; [| discriminate].
    cbn in H. apply String.eqb_eq in H. now subst. }
  split.
  - intros this before after. subst before after.
    unfold Component.activities. rewrite onMove_service.
    destruct (snd (Component.onMove_request tz angle this)) as [u |] eqn:Hreq;
      [| now left].
    right. apply onMove_request_some in Hreq.
    destruct Hreq as (_ & _ & _ & act & Hf & Hu & _).
    destruct (updatedActivity_label tz this act (snapAngleTo15Min angle))
      as (L1 & L2 & L3).
    rewrite <- Hu in L1, L2, L3.
    destruct (update_found _ _ act u Hf L1) as (pre & post & El & Hpre & Ha).
    exists pre, act, post, u. unfold Service.getActivities.
    repeat split; try assumption.
    now apply (Dragged _ _ _ Hf).
  - intros this before after. subst before after.
    unfold ComponentV2.activities, ComponentV2.onMouseMove.
    destruct (ComponentV2.onMouseMove_request tz angle this) as [u |] eqn:Hreq;
      [| now left].
    right. apply onMouseMove_request_some in Hreq.
    destruct Hreq as (_ & _ & act & Hf & Hu).
    destruct (updatedActivityV2_label tz this act (snapAngleTo15Min angle))
      as (L1 & L2 & L3).
    rewrite <- Hu in L1, L2, L3.
    destruct (update_found _ _ act u Hf L1) as (pre & post & El & Hpre & Ha).
    exists pre, act, post, u. unfold Service.getActivities. cbn.
    repeat split; try assumption.
    now apply (Dragged _ _ _ Hf).
Qed.

Lemma snapped_time_on_grid tz (angle : Q) (base : Date.t) :
  (0 <= angle)%Q -> (angle <= 360)%Q ->
  let r := angleToTime tz (snapAngleTo15Min angle) base in
  Date.localDay tz r = Date.localDay tz base /\
  Date.getMinutes tz r mod 15 = 0 /\
  Date.getSeconds tz r = 0 /\ Date.getMilliseconds tz r = 0.
Proof.
  intros Hlo Hhi r. subst r. rewrite snap_gridIndex.
  pose proof (gridIndex_range angle Hlo Hhi) as Hk.
  set (k := gridIndex angle) in *. clearbody k.
  destruct (Z.eq_dec k 96) as [-> | Hne].
  - rewrite (angleToTime_full_turn tz _ base) by reflexivity.
    destruct (setHours_fields tz base 0 0) as (F1 & F2 & F3 & F4 & F5);
      try lia.
    split; [exact F5 |]. split; [now rewrite F2 |]. now split.
  - rewrite angleToTime_grid by lia.
    assert (Hh : 0 <= k / 4 < 24) by (Z.div_mod_to_equations; lia).
    assert (Hm : 0 <= 15 * (k mod 4) < 60) by (Z.div_mod_to_equations; lia).
    destruct (setHours_fields tz base _ _ Hh Hm) as (F1 & F2 & F3 & F4 & F5).
    split; [exact F5 |].
    split; [rewrite F2; Z.div_mod_to_equations; lia |]. now split.
Qed.

(** X18.  A drag of one handle moves one endpoint only, and puts it on
    the other endpoint's calendar day.  For a pointer angle on the dial,
    an [end] drag keeps [startTime] and sets [endTime] to a quarter hour
    (seconds and milliseconds zero) of the local day of [startTime]; a
    [start] drag keeps [endTime] and sets [startTime] to a quarter hour
    of the local day of [endTime].  In both component variants. *)
Theorem drag_moves_one_endpoint tz (angle : Q) (act : Activity) :
  (0 <= angle)%Q -> (angle <= 360)%Q ->
  let onQuarterOf (anchor d : Date.t) :=
    Date.localDay tz d = Date.localDay tz anchor /\
    Date.getMinutes tz d mod 15 = 0 /\
    Date.getSeconds tz d = 0 /\ Date.getMilliseconds tz d = 0 in
  let snapped := snapAngleTo15Min angle in
  (forall this : Component.t,
     let u := Component.updatedActivity tz this act snapped in
     (Component.dragMode this = Component.mode_end ->
      startTime u = startTime act /\
      onQuarterOf (startTime act) (endTime u)) /\
     (Component.dragMode this = Component.mode_start ->
      endTime u = endTime act /\
      onQuarterOf (endTime act) (startTime u))) /\
  (forall this : ComponentV2.t,
     let u := ComponentV2.updatedActivity tz this act snapped in
     (ComponentV2.dragMode this = ComponentV2.mode_end ->
      startTime u = startTime act /\
      onQuarterOf (startTime act) (endTime u)) /\
     (ComponentV2.dragMode this = ComponentV2.mode_start ->
      endTime u = endTime act /\
      onQuarterOf (endTime act) (startTime u))).
Proof.
  intros Hlo Hhi onQuarterOf snapped.
  pose proof (snapped_time_on_grid tz angle (startTime act) Hlo Hhi) as Ge.
  pose proof (snapped_time_on_grid tz angle (endTime act) Hlo Hhi) as Gs.
  split; intros this u; subst u.
  - unfold Component.updatedActivity.
    split; intro Hm; rewrite Hm; cbn; (split; [reflexivity | assumption]).
  - unfold ComponentV2.updatedActivity.
    split; intro Hm; rewrite Hm; cbn; (split; [reflexivity | assumption]).
Qed.

Lemma drag_moves_one_endpoint_witness :
  let onQuarterOf (anchor d : Date.t) :=
    Date.localDay 0 d = Date.localDay 0 anchor /\
    Date.getMinutes 0 d mod 15 = 0 /\
    Date.getSeconds 0 d = 0 /\ Date.getMilliseconds 0 d = 0 in
  let act := Examples.lunch in
  let snapped := snapAngleTo15Min 200 in
  (forall this : Component.t,
     let u := Component.updatedActivity 0 this act snapped in
     (Component.dragMode this = Component.mode_end ->
      startTime u = startTime act /\
      onQuarterOf (startTime act) (endTime u)) /\
     (Component.dragMode this = Component.mode_start ->
      endTime u = endTime act /\
      onQuarterOf (endTime act) (startTime u))) /\
  (forall this : ComponentV2.t,
     let u := ComponentV2.updatedActivity 0 this act snapped in
     (ComponentV2.dragMode this = ComponentV2.mode_end ->
      startTime u = startTime act /\
      onQuarterOf (startTime act) (endTime u)) /\
     (ComponentV2.dragMode this = ComponentV2.mode_start ->
      endTime u = endTime act /\
      onQuarterOf (endTime act) (startTime u))).
Proof.
  apply (drag_moves_one_endpoint 0 200 Examples.lunch);
    unfold Qle; simpl; lia.
Defined.

Lemma onMove_at_rest tz (angle : Q) (this : Component.t) :
  Component.isDragging this = false -> Component.onMove tz angle this = this.
Proof.
  intro H. unfold Component.onMove, Component.onMove_request.
  now rewrite H.
Qed.

(** X19.  A press on an activity that is released without moving is a
    click: [openEditModal] then opens the modal on that activity.  Once
    the pointer has been more than 2 degrees away from where it was
    pressed, the release ends a drag: [openEditModal] leaves the
    component as it is, and so does every later pointer-move, until the
    next press.  In the simpler variant pointer-moves after the release
    have no effect either. *)
Theorem click_or_drag tz (this : Component.t) (aid : string) (a0 : Q)
    (mode : Component.DragMode) (act : Activity) :
  find (fun a => (id a =? aid)%string) (Component.activities this)
  = Some act ->
  JS.truthy_string aid = true ->
  let pressed := Component.handleMouseDown a0 aid mode this in
  (let clicked := Component.openEditModal act (Component.onEnd pressed) in
   Component.isModalOpen clicked = true /\
   Component.editingActivity clicked = Some act /\
   Component.chronodexService clicked = Component.chronodexService this) /\
  (forall a1 : Q,
     (2 < Qabs (a1 - a0))%Q ->
     let released := Component.onEnd (Component.onMove tz a1 pressed) in
     Component.openEditModal act released = released /\
     Component.isDragging released = false /\
     Component.draggedActivityId released = None /\
     forall a2 : Q, Component.onMove tz a2 released = released) /\
  (forall (c : ComponentV2.t) (a2 : Q),
     ComponentV2.onMouseMove tz a2 (ComponentV2.onMouseUp c)
     = ComponentV2.onMouseUp c).
Proof.
  intros Hf Ht pressed.
  destruct (pressed_fields this aid a0 mode)
    as (P1 & P2 & P3 & P4 & P5 & P6).
  fold pressed in P1, P2, P3, P4, P5, P6.
  specialize (P6 act Hf).
  split; [| split].
  - unfold Component.openEditModal, Component.onEnd. cbn.
    rewrite P6. cbn. split; [reflexivity |]. split; [reflexivity |].
    exact P5.
  - intros a1 Ha released.
    assert (Hm : Component.hasMoved (Component.onMove tz a1 pressed) = true).
    { apply onMove_latches; [exact P1 | |].
      - rewrite P2. cbn. now rewrite Ht.
      - rewrite P4. now apply gtb_gt. }
    split.
    { unfold Component.openEditModal. subst released. cbn.
      now rewrite Hm. }
    split; [reflexivity |]. split; [reflexivity |].
    intro a2. now apply onMove_at_rest.
  - intros c a2. reflexivity.
Qed.

Lemma click_or_drag_witness :
  let pressed :=
    Component.handleMouseDown 0 "a" Component.mode_end Examples.idle in
  let act := Examples.lunch in
  (let clicked := Component.openEditModal act (Component.onEnd pressed) in
   Component.isModalOpen clicked = true /\
   Component.editingActivity clicked = Some act /\
   Component.chronodexService clicked
   = Component.chronodexService Examples.idle) /\
  (forall a1 : Q,
     (2 < Qabs (a1 - 0))%Q ->
     let released := Component.onEnd (Component.onMove 0 a1 pressed) in
     Component.openEditModal act released = released /\
     Component.isDragging released = false /\
     Component.draggedActivityId released = None /\
     forall a2 : Q, Component.onMove 0 a2 released = released) /\
  (forall (c : ComponentV2.t) (a2 : Q),
     ComponentV2.onMouseMove 0 a2 (ComponentV2.onMouseUp c)
     = ComponentV2.onMouseUp c).
Proof.
  apply (click_or_drag 0 Examples.idle "a" 0 Component.mode_end
           Examples.lunch); reflexivity.
Defined.

(** Writing back the first activity under its identifier changes
    nothing. *)
Lemma update_same (svc : Service.t) (act : Activity) :
  find (fun a => (id a =? id act)%string) (Service.getActivities svc)
  = Some act ->
  Service.activitiesSubject (Service.updateActivity act svc)
  = Service.activitiesSubject svc.
Proof.
  intro Hf.
  destruct (update_found (Some (id act)) svc act act Hf eq_refl)
    as (pre & post & El & _ & Ha).
  now rewrite Ha, El.
Qed.

Lemma delete_leaves_none (svc : Service.t) (i : string) (a : Activity) :
  In a (Service.activitiesSubject (Service.deleteActivity i svc)) ->
  In a (Service.activitiesSubject svc) /\ id a <> i.
Proof.
  unfold Service.deleteActivity. cbn. rewrite filter_In.
  intros (Hin & Hn). split; [exact Hin |].
  apply Bool.negb_true_iff in Hn. now apply String.eqb_neq.
Qed.

(** X20.  The edit modal, opened on an activity of the list (the first
    under its identifier) while no drag has latched.  Saving without an
    edit leaves the list of activities as it was; deleting leaves no
    activity with that identifier and only activities that were there;
    each of save, delete and close closes the modal and forgets the
    edited copy.  In both component variants. *)
Theorem modal_round_trip (c1 : Component.t) (c2 : ComponentV2.t)
    (act : Activity) :
  find (fun a => (id a =? id act)%string) (Component.activities c1)
  = Some act ->
  find (fun a => (id a =? id act)%string) (ComponentV2.activities c2)
  = Some act ->
  Component.hasMoved c1 = false ->
  let o1 := Component.openEditModal act c1 in
  let o2 := ComponentV2.openEditModal act c2 in
  (Component.activities (Component.saveActivity o1)
   = Component.activities c1 /\
   (forall a, In a (Component.activities (Component.deleteActivity o1)) ->
      In a (Component.activities c1) /\ id a <> id act) /\
   forall s, s = Component.saveActivity o1 \/
             s = Component.deleteActivity o1 \/
             s = Component.closeModal o1 ->
     Component.isModalOpen s = false /\ Component.editingActivity s = None) /\
  (ComponentV2.activities (ComponentV2.saveActivity o2)
   = ComponentV2.activities c2 /\
   (forall a,
      In a (ComponentV2.activities (ComponentV2.deleteActivity o2)) ->
      In a (ComponentV2.activities c2) /\ id a <> id act) /\
   forall s, s = ComponentV2.saveActivity o2 \/
             s = ComponentV2.deleteActivity o2 \/
             s = ComponentV2.closeModal o2 ->
     ComponentV2.isModalOpen s = false /\
     ComponentV2.editingActivity s = None).
Proof.
  intros H1 H2 Hm o1 o2. subst o1 o2.
  unfold Component.openEditModal. rewrite Hm.
  split.
  - split; [apply (update_same _ _ H1) |].
    split; [intros a Ha; now apply delete_leaves_none in Ha |].
    intros s [-> | [-> | ->]]; split; reflexivity.
  - split; [apply (update_same _ _ H2) |].
    split; [intros a Ha; now apply delete_leaves_none in Ha |].
    intros s [-> | [-> | ->]]; split; reflexivity.
Qed.

Lemma modal_round_trip_witness :
  let c1 := Examples.idle in
  let c2 := Examples.pressedV2 in
  let act := Examples.lunch in
  let o1 := Component.openEditModal act c1 in
  let o2 := ComponentV2.openEditModal act c2 in
  (Component.activities (Component.saveActivity o1)
   = Component.activities c1 /\
   (forall a, In a (Component.activities (Component.deleteActivity o1)) ->
      In a (Component.activities c1) /\ id a <> id act) /\
   forall s, s = Component.saveActivity o1 \/
             s = Component.deleteActivity o1 \/
             s = Component.closeModal o1 ->
     Component.isModalOpen s = false /\ Component.editingActivity s = None) /\
  (ComponentV2.activities (ComponentV2.saveActivity o2)
   = ComponentV2.activities c2 /\
   (forall a,
      In a (ComponentV2.activities (ComponentV2.deleteActivity o2)) ->
      In a (ComponentV2.activities c2) /\ id a <> id act) /\
   forall s, s = ComponentV2.saveActivity o2 \/
             s = ComponentV2.deleteActivity o2 \/
             s = ComponentV2.closeModal o2 ->
     ComponentV2.isModalOpen s = false /\
     ComponentV2.editingActivity s = None).
Proof.
  apply (modal_round_trip Examples.idle Examples.pressedV2 Examples.lunch);
    reflexivity.
Defined.

End ControllerExtras.

(** ** The activity that [addNow] builds *)

Module AddNowExtras.
Import Tactics JSFacts DateFacts KernelExtras.

Lemma length_positive {A} (l : list A) :
  l <> [] -> (0 < inject_Z (Z.of_nat (List.length l)))%Q.
Proof.
  intro H. destruct l as [| a l]; [congruence |].
  rewrite <- (Zlt_Qlt 0). cbn [List.length]. lia.
Qed.

(** X21.  [getRandomColor] picks a colour of the palette: for a value of
    [Math.random()] in [0, 1) and a palette that is not empty the result
    is the element at index [floor(random * length)], which is in range;
    and every colour of the palette is the result for some value in
    [0, 1). *)
Theorem getRandomColor_in_palette (colors : list string) (random : Q) :
  colors <> [] -> (0 <= random)%Q -> (random < 1)%Q ->
  In (Layout.getRandomColor colors random) colors /\
  (Z.to_nat (JS.Math_floor
               (random * inject_Z (Z.of_nat (List.length colors))))
   < List.length colors)%nat /\
  forall c, In c colors ->
    exists r, (0 <= r)%Q /\ (r < 1)%Q /\ Layout.getRandomColor colors r = c.
Proof.
  intros Hne Hlo Hhi.
  pose proof (length_positive colors Hne) as Hn.
  set (n := inject_Z (Z.of_nat (List.length colors))) in *.
  assert (Hi : (Z.to_nat (JS.Math_floor (random * n))
                < List.length colors)%nat).
  { unfold JS.Math_floor.
    assert (F : Qfloor (random * n) < Z.of_nat (List.length colors)).
    { rewrite Zlt_Qlt. fold n.
      apply (Qle_lt_trans _ (random * n)); [apply Qfloor_le | nra]. }
    pose proof (Qfloor_resp_le 0 (random * n)) as L.
    change (Qfloor 0) with 0 in L.
    assert (0 <= Qfloor (random * n)) by (apply L; nra).
    lia. }
  split; [| split; [exact Hi |]].
  - unfold Layout.getRandomColor. cbv zeta. fold n. now apply nth_In.
  - intros c Hc. destruct (In_nth colors c ""%string Hc) as (i & Hlt & Hnth).
    exists (inject_Z (Z.of_nat i) / n)%Q.
    assert (Hi0 : (0 <= inject_Z (Z.of_nat i))%Q)
      by (rewrite <- (Zle_Qle 0); lia).
    assert (Hi1 : (inject_Z (Z.of_nat i) < n)%Q)
      by (subst n; rewrite <- Zlt_Qlt; lia).
    split; [apply Qle_shift_div_l; [exact Hn | lra] |].
    split; [apply Qlt_shift_div_r; [exact Hn | lra] |].
    unfold Layout.getRandomColor. cbv zeta. fold n.
    assert (E : JS.Math_floor (inject_Z (Z.of_nat i) / n * n) = Z.of_nat i).
    { unfold JS.Math_floor.
      assert (Eq : (inject_Z (Z.of_nat i) / n * n
                    == inject_Z (Z.of_nat i))%Q) by (field; lra).
      rewrite Eq. apply Qfloor_Z. }
    now rewrite E, Nat2Z.id.
Qed.

Lemma getRandomColor_in_palette_witness :
  In (Layout.getRandomColor Component.predefinedColors (1 # 2))
     Component.predefinedColors /\
  (Z.to_nat (JS.Math_floor
               ((1 # 2) * inject_Z (Z.of_nat
                  (List.length Component.predefinedColors))))
   < List.length Component.predefinedColors)%nat /\
  forall c, In c Component.predefinedColors ->
    exists r, (0 <= r)%Q /\ (r < 1)%Q /\
      Layout.getRandomColor Component.predefinedColors r = c.
Proof.
  apply (getRandomColor_in_palette Component.predefinedColors (1 # 2));
    [discriminate | unfold Qle; simpl; lia | reflexivity].
Defined.

Lemma roundedMinutes_near (minutes : Z) :
  -7 <= JS.Math_round (inject_Z minutes / 15) * 15 - minutes <= 7.
Proof.
  destruct (round_near (inject_Z minutes / 15)) as [L U].
  set (q := JS.Math_round (inject_Z minutes / 15)) in *. clearbody q.
  assert (L' : (inject_Z (-8) < inject_Z (q * 15 - minutes))%Q).
  { unfold Z.sub. rewrite inject_Z_plus, inject_Z_mult, inject_Z_opp.
    qconst. lra. }
  assert (U' : (inject_Z (q * 15 - minutes) < inject_Z 8)%Q).
  { unfold Z.sub. rewrite inject_Z_plus, inject_Z_mult, inject_Z_opp.
    qconst. lra. }
  rewrite <- Zlt_Qlt in L', U'. lia.
Qed.

(** X22.  The start of the activity that [addNow] builds comes from the
    clock's minutes alone: it is the clock reading with its minutes
    rounded to a multiple of 15 and its seconds and milliseconds
    dropped.  So it lies less than 8 minutes before and at most 7
    minutes after the clock reading, it is the clock reading cut to
    the whole minute when the clock's minutes are a multiple of 15, and
    it depends on the clock reading only up to the minute. *)
Theorem addNow_start_near_now tz (colors : list string) (now : Date.t)
    (uuid : string) (random : Q) :
  let a := Layout.newActivity tz colors now uuid random in
  let wholeMinute := Date.setMinutes tz now (Date.getMinutes tz now) 0 0 in
  -8 * Date.msPerMinute < Date.getTime (startTime a) - Date.getTime now
    <= 7 * Date.msPerMinute /\
  (Date.getMinutes tz now mod 15 = 0 ->
   Date.getTime (startTime a) = Date.getTime wholeMinute) /\
  startTime a
  = startTime (Layout.newActivity tz colors wholeMinute uuid random) /\
  id a = uuid.
Proof.
  intros a wholeMinute. subst a wholeMinute.
  unfold Layout.newActivity. cbn [startTime id].
  pose proof (roundedMinutes_near (Date.getMinutes tz now)) as Hq.
  pose proof (getMinutes_range tz now) as Hm.
  assert (Em : Date.getMinutes tz
                 (Date.setMinutes tz now (Date.getMinutes tz now) 0 0)
               = Date.getMinutes tz now) by date_lia.
  rewrite Em.
  set (q := JS.Math_round (inject_Z (Date.getMinutes tz now) / 15)) in *.
  clearbody q.
  split; [date_lia |].
  split; [intro H15 |].
  - assert (Eq : q * 15 = Date.getMinutes tz now)
      by (Z.div_mod_to_equations; lia).
    rewrite Eq. reflexivity.
  - split; [date_lia | reflexivity].
Qed.

End AddNowExtras.

(** ** The marks of the dial *)

Module DialExtras.
Import Tactics TimeUtils Notions JSFacts DateFacts RenderingExtras.

Lemma timeToAngle_at tz (day hh mm : Z) :
  0 <= hh < 24 -> 0 <= mm < 60 ->
  timeToAngle tz (at_ tz day hh mm)
  = ((inject_Z hh + inject_Z mm / 60) * 15)%Q.
Proof.
  intros Hh Hm. unfold timeToAngle, at_. cbv zeta.
  assert (E1 : Date.getHours tz
                 (Date.UTC tz (Date.MakeDate day (Date.MakeTime hh mm 0 0)))
               = hh) by date_lia.
  assert (E2 : Date.getMinutes tz
                 (Date.UTC tz (Date.MakeDate day (Date.MakeTime hh mm 0 0)))
               = mm) by date_lia.
  now rewrite E1, E2.
Qed.

(** X23.  The marks of the dial sit where the times they stand for are
    drawn.  [hours] holds the 24 whole hours and [halfHours] the 48
    half hours of a day, and [getHourPoint] puts the mark of [h] o'clock,
    and of half past [h], at the angle that [timeToAngle] gives to that
    time of any day. *)
Theorem marks_match_times (center radius rOffset : Q) (tz day : Z) :
  List.length Rendering.hours = 24%nat /\
  List.length Rendering.halfHours = 48%nat /\
  (forall mark, In mark Rendering.hours ->
     exists h, 0 <= h < 24 /\ mark = inject_Z h /\
       Rendering.getHourPoint center radius mark rOffset
       = polarToCartesian center center (radius + rOffset)
           (timeToAngle tz (at_ tz day h 0))) /\
  (forall mark, In mark Rendering.halfHours ->
     exists i, 0 <= i < 48 /\ mark = (inject_Z i / 2)%Q /\
       Rendering.getHourPoint center radius mark rOffset
       = polarToCartesian center center (radius + rOffset)
           (timeToAngle tz (at_ tz day (i / 2) (30 * (i mod 2))))).
Proof.
  split; [reflexivity |]. split; [reflexivity |]. split.
  - intros mark Hin. unfold Rendering.hours in Hin.
    apply in_map_iff in Hin. destruct Hin as (n & <- & Hn).
    apply in_seq in Hn. exists (Z.of_nat n).
    split; [lia |]. split; [reflexivity |].
    unfold Rendering.getHourPoint. cbv zeta.
    apply polarToCartesian_Qeq.
    rewrite timeToAngle_at by lia. qconst. ring.
  - intros mark Hin. unfold Rendering.halfHours in Hin.
    apply in_map_iff in Hin. destruct Hin as (n & <- & Hn).
    apply in_seq in Hn. exists (Z.of_nat n).
    split; [lia |]. split; [reflexivity |].
    unfold Rendering.getHourPoint. cbv zeta.
    apply polarToCartesian_Qeq.
    set (i := Z.of_nat n).
    rewrite timeToAngle_at by (Z.div_mod_to_equations; lia).
    assert (E : (inject_Z i
                 == 2 * inject_Z (i / 2) + inject_Z (i mod 2))%Q).
    { rewrite (Z.div_mod i 2) at 1 by lia.
      rewrite inject_Z_plus, inject_Z_mult. reflexivity. }
    rewrite inject_Z_mult. qconst. lra.
Qed.

End DialExtras.
